(** * Face-recognition attendance system: matcher, ledger and verification loop

    A shallow embedding of [src/main.cpp] (class [AttendanceSystem]) and, where
    the earlier variant of the program differs, of [eye detection.cpp].

    - OpenCV matrices of type [CV_8UC1] are lists of pixel intensities with the
      library's saturating 8-bit arithmetic written out.
    - [std::unordered_set<string>] is a [gset string], the cooldown table
      [std::unordered_map<string, time_point>] is a [gmap string Z]; the
      gallery [std::unordered_map<string, Mat>] is traversed by [recognizeFace],
      so it appears as the list of its entries in iteration order.
    - [std::chrono::steady_clock] readings are integers (nanosecond ticks).
    - The attendance file is the list of its lines; every effect of
      [markAttendance] is also recorded, in program order, in a trace. *)

From Stdlib Require Import ZArith QArith Lqa Lia.
From Stdlib Require Import Ascii String.
From Stdlib Require DecimalString.
From stdpp Require Import gmap strings list sorting.

Set Warnings "-clear-no-such-hyp,-abstract-large-number".

Local Open Scope string_scope.
Local Open Scope list_scope.
Local Open Scope Z_scope.

(** ** Comparison of [double] values

    Every [double] compared in [recognizeFace] is the quotient of an integer
    pixel sum (at most [255 * 40000]) by [40000], or one of the constants
    [1500.0] and [DBL_MAX]; the quotients of distinct sums differ by at least
    [1/40000], far more than one rounding step, so IEEE comparison of these
    values coincides with comparison of the exact rationals. *)

Definition Qltb (x y : Q) : bool := Qnum x * QDen y <? Qnum y * QDen x.

(** [DBL_MAX = (2 - 2^-52) * 2^1023]. *)
Definition DBL_MAX : Q := inject_Z ((2 ^ 53 - 1) * 2 ^ 971).

(** ** OpenCV operations on [CV_8UC1] matrices *)

Module Cv.

(** Pixel data of a single-channel 8-bit matrix, row after row. *)
Definition Mat : Type := list Z.

(** [saturate_cast<uchar>]. *)
Definition saturate_u8 (v : Z) : Z := Z.max 0 (Z.min v 255).

(** [cv::absdiff(a, b, dst)]: [dst(I) = saturate(|a(I) - b(I)|)].  Both
    operands have the same size (OpenCV raises otherwise; every matrix that
    reaches the matcher has been resized to 200x200). *)
Definition absdiff (a b : Mat) : Mat :=
  zip_with (fun x y => saturate_u8 (Z.abs (x - y))) a b.

(** [a.mul(b)]: per-element product.  The result has the depth of the
    operands, so for [CV_8UC1] each product is cut off at 255. *)
Definition mul (a b : Mat) : Mat :=
  zip_with (fun x y => saturate_u8 (x * y)) a b.

(** [cv::sum(m)[0]]: the sum of all elements, accumulated in a [double]
    (exact for integer sums of this size). *)
Definition sum (m : Mat) : Z := foldr Z.add 0 m.

(** [Mat(rows, cols, CV_8UC1, Scalar(v))]. *)
Definition filled (rows cols : nat) (v : Z) : Mat := replicate (rows * cols) v.

End Cv.

Abbreviation Mat := Cv.Mat.

(** ** The matcher: [AttendanceSystem::recognizeFace] *)

(** [sum(diff.mul(diff))[0] / (200.0*200.0)] for [diff = absdiff(face, known)]. *)
Definition face_mse (face known : Mat) : Q :=
  let diff := Cv.absdiff face known in
  (inject_Z (Cv.sum (Cv.mul diff diff)) / inject_Z (200 * 200))%Q.

(** One iteration of [for (auto &kv : known_faces)]; the accumulator is
    [(best_name, min_mse)]. *)
Definition recognize_step (threshold : Q) (face : Mat)
    (acc : string * Q) (kv : string * Mat) : string * Q :=
  let '(best_name, min_mse) := acc in
  let mse := face_mse face kv.2 in
  if Qltb mse min_mse && Qltb mse threshold then (kv.1, mse)
  else (best_name, min_mse).

(** The scan with the rejection threshold as a parameter; [known_faces] lists
    the gallery in the order in which the container is iterated. *)
Definition recognizeFace_with (threshold : Q) (face : Mat)
    (known_faces : list (string * Mat)) : string :=
  (fold_left (recognize_step threshold face) known_faces ("Unknown", DBL_MAX)).1.

Definition rejection_threshold : Q := 1500.

Definition recognizeFace (face : Mat) (known_faces : list (string * Mat)) : string :=
  recognizeFace_with rejection_threshold face known_faces.

(** The distance the documentation of [recognizeFace] names: the mean of the
    squared intensity differences, without any 8-bit cut-off. *)
Definition squared_differences (face known : Mat) : list Z :=
  zip_with (fun x y => (x - y) * (x - y)) face known.

Definition mean_squared_error (face known : Mat) : Q :=
  (inject_Z (Cv.sum (squared_differences face known)) / inject_Z (200 * 200))%Q.

(** ** Strings as [std::string] *)

(** [std::string::npos], the largest [size_t]. *)
Definition npos : N := 2 ^ 64 - 1.

(** [size_t] arithmetic wraps around. *)
Definition size_add (a b : N) : N := ((a + b) mod 2 ^ 64)%N.
Definition size_sub (a b : N) : N := ((a + 2 ^ 64 - b) mod 2 ^ 64)%N.

(** [find_at c s i pos] looks for [c] in [s], whose first character has index
    [i], at indices not below [pos]. *)
Fixpoint find_at (c : ascii) (s : string) (i pos : N) : N :=
  match s with
  | EmptyString => npos
  | String a s' =>
      if (pos <=? i)%N && Ascii.eqb a c then i else find_at c s' (i + 1)%N pos
  end.

(** [s.find(c, pos)]. *)
Definition find (s : string) (c : ascii) (pos : N) : N := find_at c s 0%N pos.

(** [s.substr(pos, n)] for [pos <= s.size()] (the only way it is called). *)
Fixpoint substr (s : string) (pos n : N) : string :=
  match s with
  | EmptyString => EmptyString
  | String a s' =>
      if (pos =? 0)%N
      then (if (n =? 0)%N then EmptyString else String a (substr s' 0%N (n - 1)%N))
      else substr s' (pos - 1)%N n
  end.

(** [s.find_first_of(chars)]. *)
Fixpoint find_first_of_at (chars : list ascii) (s : string) (i : N) : N :=
  match s with
  | EmptyString => npos
  | String a s' =>
      if existsb (Ascii.eqb a) chars then i else find_first_of_at chars s' (i + 1)%N
  end.

Definition find_first_of (s : string) (chars : list ascii) : N :=
  find_first_of_at chars s 0%N.

(** [::tolower] in the C locale. *)
Definition tolower (c : ascii) : ascii :=
  let n := nat_of_ascii c in
  if (65 <=? n)%nat && (n <=? 90)%nat then ascii_of_nat (n + 32) else c.

Fixpoint transform_tolower (s : string) : string :=
  match s with
  | EmptyString => EmptyString
  | String a s' => String (tolower a) (transform_tolower s')
  end.

(** The lines [std::getline] yields for a file with the given contents; [cur]
    holds the characters of the line being read.  At the end of the file a
    last line without newline is delivered unless it is empty. *)
Fixpoint getlines (contents cur : string) : list string :=
  match contents with
  | EmptyString => match cur with EmptyString => [] | _ => [cur] end
  | String a rest =>
      if Ascii.eqb a "010"%char then cur :: getlines rest EmptyString
      else getlines rest (cur +:+ String a EmptyString)
  end.

(** ** The attendance ledger *)

(** The members of [AttendanceSystem] the ledger uses.  [attendance_file] is
    the contents of the CSV file ([None]: it does not exist). *)
Record System := {
  attendance_file : option string;
  attendance_set : gset string;
  last_mark_time : gmap string Z;
  current_date : string
}.

(** [chrono::seconds(n)] in ticks of [steady_clock] (nanoseconds). *)
Definition seconds (n : Z) : Z := n * 1000000000.

Definition mark_cooldown : Z := seconds 10.

Definition days : list string := ["Sun"; "Mon"; "Tue"; "Wed"; "Thu"; "Fri"; "Sat"].

(** [getCurrentDay()], from the [tm_wday] field (0 to 6) of the local time. *)
Definition getCurrentDay (tm_wday : nat) : string := nth tm_wday days "".

(** One line body of [loadAttendance]'s loop. *)
Definition load_line (today : string) (set : gset string) (line : string) : gset string :=
  let c1 := find line ","%char 0%N in
  let c2 := find line ","%char (size_add c1 1) in
  if (c1 =? npos)%N || (c2 =? npos)%N then set
  else
    let name := substr line 0%N c1 in
    let date := substr line (size_add c1 1) (size_sub (size_sub c2 c1) 1) in
    if String.eqb date today then {[name]} ∪ set else set.

(** [loadAttendance()]. *)
Definition loadAttendance (sys : System) : System :=
  match attendance_file sys with
  | None => sys
  | Some contents =>
      {| attendance_file := attendance_file sys;
         attendance_set :=
           fold_left (load_line (current_date sys)) (getlines contents EmptyString)
                     (attendance_set sys);
         last_mark_time := last_mark_time sys;
         current_date := current_date sys |}
  end.

(** A ledger record and the line written for it. *)
Record AttendanceRecord := {
  rec_name : string;
  rec_date : string;
  rec_day : string
}.

Definition record_line (r : AttendanceRecord) : string :=
  rec_name r +:+ "," +:+ rec_date r +:+ "," +:+ rec_day r +:+ String "010"%char EmptyString.

(** What one call of [markAttendance] reads from its environment: the steady
    clock, whether the [ofstream] opens, and the weekday of the local time. *)
Record MarkEnv := {
  steady_now : Z;
  file_opens : bool;
  tm_wday : nat
}.

(** The writes of [markAttendance], in program order. *)
Inductive Effect :=
| CooldownWrite (name : string) (t : Z)
| SetInsert (name : string)
| FileAppend (r : AttendanceRecord).

Definition cooldown_active (sys : System) (name : string) (now : Z) : bool :=
  match last_mark_time sys !! name with
  | Some t => now - t <? mark_cooldown
  | None => false
  end.

Definition append_to (file : option string) (line : string) : option string :=
  Some (default EmptyString file +:+ line).

(** [markAttendance(name)]: the new state and the writes performed. *)
Definition markAttendance (env : MarkEnv) (name : string) (sys : System)
    : System * list Effect :=
  let now := steady_now env in
  if cooldown_active sys name now then (sys, [])
  else
    let marks := <[name := now]> (last_mark_time sys) in
    if bool_decide (name ∈ attendance_set sys) then
      ({| attendance_file := attendance_file sys;
          attendance_set := attendance_set sys;
          last_mark_time := marks;
          current_date := current_date sys |},
       [CooldownWrite name now])
    else
      let set := {[name]} ∪ attendance_set sys in
      if file_opens env then
        let r := {| rec_name := name; rec_date := current_date sys;
                    rec_day := getCurrentDay (tm_wday env) |} in
        ({| attendance_file := append_to (attendance_file sys) (record_line r);
            attendance_set := set;
            last_mark_time := marks;
            current_date := current_date sys |},
         [CooldownWrite name now; SetInsert name; FileAppend r])
      else
        ({| attendance_file := attendance_file sys;
            attendance_set := set;
            last_mark_time := marks;
            current_date := current_date sys |},
         [CooldownWrite name now; SetInsert name]).

(** A sequence of [markAttendance] calls; the writes are concatenated. *)
Fixpoint mark_all (calls : list (MarkEnv * string)) (sys : System)
    : System * list Effect :=
  match calls with
  | [] => (sys, [])
  | (env, name) :: rest =>
      let '(sys1, w1) := markAttendance env name sys in
      let '(sys2, w2) := mark_all rest sys1 in
      (sys2, w1 ++ w2)
  end.

(** The records appended to the file by a sequence of writes. *)
Definition appended (ws : list Effect) : list AttendanceRecord :=
  omap (fun w => match w with FileAppend r => Some r | _ => None end) ws.

Definition record_key (r : AttendanceRecord) : string * string :=
  (rec_name r, rec_date r).

(** ** The verification loop of [runAttendance] *)

(** The locals that survive from one frame to the next. *)
Record Tracker := {
  candidate_name : string;
  candidate_start : Z;
  verified_today : bool
}.

(** Their values before the first frame; a default-constructed [time_point]
    is the clock's epoch. *)
Definition tracker_init : Tracker :=
  {| candidate_name := "Unknown"; candidate_start := 0; verified_today := false |}.

(** The status line drawn at [Point(10,30)]. *)
Inductive Banner :=
| MarkedForToday (name : string)
| Successful (name : string)
| Verifying (name : string).

Definition banner_text (b : Banner) : string :=
  match b with
  | MarkedForToday name => "Attendance Marked For Today: " +:+ name
  | Successful name => "Attendance Successful: " +:+ name
  | Verifying name => "Verifying " +:+ name +:+ "..."
  end.

(** What the verification logic sees of a frame: the name left in
    [detected_name] by the loop over the detected faces, the clock reading
    [now] of the loop, and the environment of a possible [markAttendance]. *)
Record Observation := {
  detected_name : string;
  loop_now : Z;
  mark_env : MarkEnv
}.

(** What a frame produces: the banner, the names [markAttendance] was called
    with, and the writes those calls performed. *)
Record FrameResult := {
  banner : option Banner;
  mark_calls : list string;
  writes : list Effect
}.

Definition quiet (b : option Banner) : FrameResult :=
  {| banner := b; mark_calls := []; writes := [] |}.

(** [chrono::duration_cast<chrono::seconds>(d).count()]: truncation. *)
Definition whole_seconds (d : Z) : Z := Z.quot d (seconds 1).

(** The block under the comment "Verification logic". *)
Definition verify (o : Observation) (sys : System) (tr : Tracker)
    : System * Tracker * FrameResult :=
  let now := loop_now o in
  if negb (String.eqb (detected_name o) "Unknown") then
    if negb (String.eqb (candidate_name tr) (detected_name o)) then
      (sys,
       {| candidate_name := detected_name o; candidate_start := now;
          verified_today := false |},
       quiet None)
    else
      let duration := whole_seconds (now - candidate_start tr) in
      if 3 <=? duration then
        if bool_decide (candidate_name tr ∈ attendance_set sys) then
          (sys,
           {| candidate_name := candidate_name tr;
              candidate_start := candidate_start tr; verified_today := true |},
           quiet (Some (MarkedForToday (candidate_name tr))))
        else if negb (verified_today tr) then
          let '(sys', ws) := markAttendance (mark_env o) (candidate_name tr) sys in
          (sys',
           {| candidate_name := candidate_name tr;
              candidate_start := candidate_start tr; verified_today := true |},
           {| banner := Some (Successful (candidate_name tr));
              mark_calls := [candidate_name tr]; writes := ws |})
        else
          (sys, tr, quiet (Some (Successful (candidate_name tr))))
      else
        (sys, tr, quiet (Some (Verifying (candidate_name tr))))
  else
    (sys,
     {| candidate_name := ""; candidate_start := candidate_start tr;
        verified_today := false |},
     quiet None).

(** The verification logic over consecutive frames. *)
Fixpoint verify_all (os : list Observation) (sys : System) (tr : Tracker)
    : System * Tracker * list FrameResult :=
  match os with
  | [] => (sys, tr, [])
  | o :: rest =>
      let '(sys1, tr1, r) := verify o sys tr in
      let '(sys2, tr2, rs) := verify_all rest sys1 tr1 in
      (sys2, tr2, r :: rs)
  end.

(** A captured frame: whether it is empty, the regions the detector found
    (cut from the equalised grey image and resized to 200x200), and the
    readings of the environment. *)
Record Frame := {
  frame_empty : bool;
  faces : list Mat;
  frame_now : Z;
  frame_mark_env : MarkEnv
}.

(** The loop over [faces]: every face overwrites [detected_name]. *)
Definition detect (known_faces : list (string * Mat)) (rois : list Mat) : string :=
  fold_left (fun _ roi => recognizeFace roi known_faces) rois "Unknown".

Definition observe (known_faces : list (string * Mat)) (f : Frame) : Observation :=
  {| detected_name := detect known_faces (faces f);
     loop_now := frame_now f;
     mark_env := frame_mark_env f |}.

(** The [while] loop for the frames captured until the operator quits; an
    empty frame is skipped by [continue]. *)
Fixpoint run_frames (known_faces : list (string * Mat)) (frames : list Frame)
    (sys : System) (tr : Tracker) : System * Tracker * list FrameResult :=
  match frames with
  | [] => (sys, tr, [])
  | f :: rest =>
      if frame_empty f then run_frames known_faces rest sys tr
      else
        let '(sys1, tr1, r) := verify (observe known_faces f) sys tr in
        let '(sys2, tr2, rs) := run_frames known_faces rest sys1 tr1 in
        (sys2, tr2, r :: rs)
  end.

(** [runAttendance()]. *)
Definition runAttendance (known_faces : list (string * Mat)) (camera_opens : bool)
    (frames : list Frame) (sys : System) : System * list FrameResult :=
  if camera_opens then
    let '(sys', _, rs) := run_frames known_faces frames sys tracker_init in (sys', rs)
  else (sys, []).

Definition all_mark_calls (rs : list FrameResult) : list string :=
  concat (map mark_calls rs).

Definition all_writes (rs : list FrameResult) : list Effect :=
  concat (map writes rs).

(** ** Enrolment: [loadKnownFaces] and the constructor *)

(** A directory entry of the photos directory; [extracted_face] is the result
    of [extractFace(imread(path))], [None] for an empty matrix. *)
Record DirEntry := {
  is_regular_file : bool;
  extension : string;
  stem : string;
  extracted_face : option Mat
}.

Definition isImage (ext : string) : bool :=
  let e := transform_tolower ext in
  String.eqb e ".jpg" || String.eqb e ".jpeg" || String.eqb e ".png"
  || String.eqb e ".bmp" || String.eqb e ".tiff".

Definition inferName (stem : string) : string :=
  let pos := find_first_of stem ["_"%char; "-"%char; " "%char] in
  if (pos =? npos)%N then stem else substr stem 0%N pos.

(** One directory entry; the accumulator is [(known_faces, loaded)]. *)
Definition load_entry (acc : gmap string Mat * nat) (e : DirEntry)
    : gmap string Mat * nat :=
  if negb (is_regular_file e) then acc
  else if negb (isImage (extension e)) then acc
  else
    match extracted_face e with
    | Some face => (<[inferName (stem e) := face]> acc.1, S acc.2)
    | None => acc
    end.

(** [loadKnownFaces()]; [photos] is [None] when the path is missing or not a
    directory.  The result is [None] when the function calls
    [exit(EXIT_FAILURE)]. *)
Definition loadKnownFaces (photos : option (list DirEntry)) : option (gmap string Mat) :=
  match photos with
  | None => None
  | Some entries =>
      let '(known_faces, loaded) := fold_left load_entry entries (∅, 0%nat) in
      if (loaded =? 0)%nat then None else Some known_faces
  end.

(** What the constructor reads: whether the cascade file loads, the ledger
    file, the photos directory and the string [getCurrentDate()] returned. *)
Record Environment := {
  cascade_loads : bool;
  ledger : option string;
  photos : option (list DirEntry);
  today : string
}.

Inductive Startup :=
| ExitFailure
| Constructed (sys : System) (known_faces : gmap string Mat).

(** The constructor of [AttendanceSystem]. *)
Definition construct (env : Environment) : Startup :=
  if negb (cascade_loads env) then ExitFailure
  else
    let sys := loadAttendance {| attendance_file := ledger env; attendance_set := ∅;
                                 last_mark_time := ∅; current_date := today env |} in
    match loadKnownFaces (photos env) with
    | None => ExitFailure
    | Some known_faces => Constructed sys known_faces
    end.


(** The menu of [main]. *)
Inductive Choice :=
| StartAttendance (camera_opens : bool) (frames : list Frame)
| ViewToday
| Invalid.

Definition menu_step (known_faces : list (string * Mat))
    (acc : System * list FrameResult) (c : Choice) : System * list FrameResult :=
  match c with
  | StartAttendance camera_opens frames =>
      let '(sys', rs) := runAttendance known_faces camera_opens frames acc.1 in
      (sys', acc.2 ++ rs)
  | ViewToday | Invalid => acc
  end.

(** [main()]: [None] when the process exits before the menu; [order] is the
    iteration order of the gallery container. *)
Definition main (order : gmap string Mat -> list (string * Mat))
    (env : Environment) (choices : list Choice) : option (System * list FrameResult) :=
  match construct env with
  | ExitFailure => None
  | Constructed sys known_faces =>
      Some (fold_left (menu_step (order known_faces)) choices (sys, []))
  end.

(** ** The earlier variant of the program ([eye detection.cpp]) *)

Module Legacy.

(** [recognizeFace]: both images are first converted to grey and resized to
    100x100; the matrices here are the results of that.  The distance is
    [sum(diff)[0] / (100*100)]. *)
Definition face_distance (face_gray known_gray : Mat) : Q :=
  (inject_Z (Cv.sum (Cv.absdiff face_gray known_gray)) / inject_Z (100 * 100))%Q.

Definition recognize_step (face_gray : Mat) (acc : string * Q) (kv : string * Mat)
    : string * Q :=
  let '(name, min_diff) := acc in
  let mse := face_distance face_gray kv.2 in
  if Qltb mse min_diff && Qltb mse 1000 then (kv.1, mse) else (name, min_diff).

Definition recognizeFace (face_gray : Mat) (known : list (string * Mat)) : string :=
  (fold_left (recognize_step face_gray) known ("Unknown", 1000000000%Q)).1.

(** [markAttendance]: no cooldown table in this variant. *)
Definition markAttendance (env : MarkEnv) (name : string) (sys : System)
    : System * list Effect :=
  if bool_decide (name ∈ attendance_set sys) then (sys, [])
  else
    let set := {[name]} ∪ attendance_set sys in
    if file_opens env then
      let r := {| rec_name := name; rec_date := current_date sys;
                  rec_day := getCurrentDay (tm_wday env) |} in
      ({| attendance_file := append_to (attendance_file sys) (record_line r);
          attendance_set := set;
          last_mark_time := last_mark_time sys;
          current_date := current_date sys |},
       [SetInsert name; FileAppend r])
    else
      ({| attendance_file := attendance_file sys;
          attendance_set := set;
          last_mark_time := last_mark_time sys;
          current_date := current_date sys |},
       [SetInsert name]).

(** The body of the frame loop: every detected face is recognised and marked
    at once. *)
Definition frame_step (known : list (string * Mat)) (env : MarkEnv)
    (acc : System * list string) (face_gray : Mat) : System * list string :=
  let name := recognizeFace face_gray known in
  ((markAttendance env name acc.1).1, acc.2 ++ [name]).

(** [runAttendance]: the gallery is loaded here; with no known face the
    function returns to the menu. *)
Definition runAttendance (known : list (string * Mat)) (camera_opens : bool)
    (frames : list (MarkEnv * list Mat)) (sys : System) : System * list string :=
  match known with
  | [] => (sys, [])
  | _ =>
      if camera_opens then
        fold_left (fun acc f => fold_left (frame_step known f.1) f.2 acc) frames (sys, [])
      else (sys, [])
  end.

End Legacy.

(** ** Vocabulary of the statements *)

(** The pair [(best_name, min_mse)] at the end of the loop of
    [recognizeFace]. *)
Definition scan (threshold : Q) (face : Mat) (g : list (string * Mat)) : string * Q :=
  fold_left (recognize_step threshold face) g ("Unknown", DBL_MAX).

(** Outcome of the loop over a gallery [g]: either no entry is below the
    threshold and the initial pair is returned, or the pair names the first
    entry, in traversal order, whose distance is minimal. *)
Inductive scan_outcome (threshold : Q) (face : Mat) (g : list (string * Mat))
    : string * Q -> Prop :=
| scan_rejects :
    (forall kv, kv ∈ g -> (threshold <= face_mse face kv.2)%Q) ->
    scan_outcome threshold face g ("Unknown", DBL_MAX)
| scan_accepts pre kv post :
    g = pre ++ kv :: post ->
    (face_mse face kv.2 < threshold)%Q ->
    (forall kv', kv' ∈ pre -> (face_mse face kv.2 < face_mse face kv'.2)%Q) ->
    (forall kv', kv' ∈ post -> (face_mse face kv.2 <= face_mse face kv'.2)%Q) ->
    scan_outcome threshold face g (kv.1, face_mse face kv.2).

(** 200x200 signatures of constant intensity, for the examples. *)
Definition flat (v : Z) : Mat := Cv.filled 200 200 v.

Arguments flat : simpl never.


(** A day on which nobody has been marked yet, and a clock-and-file
    environment for the examples. *)
Definition empty_day : System :=
  {| attendance_file := Some EmptyString; attendance_set := ∅;
     last_mark_time := ∅; current_date := "2026-10-30" |}.

Definition at_time (t : Z) (opens : bool) : MarkEnv :=
  {| steady_now := t; file_opens := opens; tm_wday := 5 |}.

(** Some frame is three seconds or more after [t0]. *)
Definition reaches_dwell (t0 : Z) (os : list Observation) : bool :=
  existsb (fun o => seconds 3 <=? loop_now o - t0) os.

(** A frame in which [name] is detected at time [t]. *)
Definition sees (name : string) (t : Z) : Observation :=
  {| detected_name := name; loop_now := t; mark_env := at_time t true |}.

(** A photo whose file name starts with a separator enrols the empty name. *)
Definition nameless_photo : DirEntry :=
  {| is_regular_file := true; extension := ".jpg"; stem := "_alice";
     extracted_face := Some (flat 0) |}.

(** Every name in the cooldown table is in the today-set. *)
Definition cooldown_consistent (sys : System) : Prop :=
  forall n, is_Some (last_mark_time sys !! n) -> n ∈ attendance_set sys.

(** A set [verified_today] means the tracked name is in the today-set. *)
Definition tracker_consistent (sys : System) (tr : Tracker) : Prop :=
  verified_today tr = true -> candidate_name tr ∈ attendance_set sys.

(** The file after the given records have been appended to it. *)
Definition with_records (file : option string) (rs : list AttendanceRecord) : option string :=
  fold_left (fun f r => append_to f (record_line r)) rs file.

(** A ledger with one record for today, as the constructor loads it. *)
Definition bob_marked : System :=
  loadAttendance
    {| attendance_file := Some ("Bob,2026-10-30,Fri" +:+ String "010"%char EmptyString);
       attendance_set := ∅; last_mark_time := ∅; current_date := "2026-10-30" |}.

(** A frame with one detected face. *)
Definition shows (face : Mat) (t : Z) : Frame :=
  {| frame_empty := false; faces := [face]; frame_now := t;
     frame_mark_env := at_time t true |}.

(** A frame that neither marks nor records the sentinel. *)
Definition spares_unknown (fr : FrameResult) : Prop :=
  (forall n, n ∈ mark_calls fr -> n ≠ "Unknown")
  /\ (forall r, r ∈ appended (writes fr) -> rec_name r ≠ "Unknown").

(** An entry that adds a signature to the gallery. *)
Definition usable (e : DirEntry) : bool :=
  is_regular_file e && isImage (extension e) && bool_decide (is_Some (extracted_face e)).

(** The photos directory is missing or none of its entries is usable. *)
Definition no_usable_face (photos : option (list DirEntry)) : Prop :=
  match photos with
  | None => True
  | Some entries => Forall (fun e => usable e = false) entries
  end.

(** ** Further parts of the program *)

(** *** [extractFace] *)

(** [cv::Rect]. *)
Record Rect := {
  rect_x : Z;
  rect_y : Z;
  rect_width : Z;
  rect_height : Z
}.

(** An [int] product (two's-complement wrap-around where it does not fit). *)
Definition int_mul (a b : Z) : Z := (a * b + 2 ^ 31) mod 2 ^ 32 - 2 ^ 31.

(** [Rect::area()]. *)
Definition area (r : Rect) : Z := int_mul (rect_width r) (rect_height r).

(** [std::max_element(first, last, comp)]: the first range element is the
    candidate, and a later element replaces the candidate when [comp] says the
    candidate is smaller. *)
Definition max_element {A : Type} (comp : A -> A -> bool) (l : list A) : option A :=
  match l with
  | [] => None
  | x :: rest =>
      Some (fold_left (fun largest y => if comp largest y then y else largest) rest x)
  end.

Section ExtractFace.

(** The OpenCV calls of [extractFace]: the colour image and its emptiness
    test, [cvtColor] to grey, the cascade's [detectMultiScale], and the
    production of the signature from a region of the grey image (crop,
    [resize] to 200x200, [equalizeHist]). *)
Variable Image : Type.
Variable Gray : Type.
Variable image_empty : Image -> bool.
Variable cvtColor : Image -> Gray.
Variable detectMultiScale : Gray -> list Rect.
Variable signature : Gray -> Rect -> Mat.

(** [extractFace(img)]; [None] is the empty matrix. *)
Definition extractFace (img : Image) : option Mat :=
  if image_empty img then None
  else
    let gray := cvtColor img in
    let faces := detectMultiScale gray in
    match max_element (fun a b => area a <? area b) faces with
    | None => None
    | Some best => Some (signature gray best)
    end.

End ExtractFace.

(** *** [getCurrentDate] *)

(** [ostream << int]. *)
Definition print_int (z : Z) : string :=
  DecimalString.NilZero.string_of_int (Z.to_int z).

(** [setw(2) << setfill('0')] applied to the next number. *)
Definition pad2 (s : string) : string :=
  match String.length s with
  | 0%nat => "00" +:+ s
  | 1%nat => "0" +:+ s
  | _ => s
  end.

(** [getCurrentDate()] of [main.cpp], from the fields of the local time. *)
Definition getCurrentDate (tm_year tm_mon tm_mday : Z) : string :=
  print_int (tm_year + 1900) +:+ "-" +:+ pad2 (print_int (tm_mon + 1)) +:+ "-"
  +:+ pad2 (print_int tm_mday).

(** *** The earlier variant: date and ledger *)

Module LegacyLedger.

(** [getCurrentDate()]: no padding. *)
Definition getCurrentDate (tm_year tm_mon tm_mday : Z) : string :=
  print_int (tm_year + 1900) +:+ "-" +:+ print_int (tm_mon + 1) +:+ "-"
  +:+ print_int tm_mday.

(** One line of [loadAttendance]; [substr(pos)] takes [npos] characters. *)
Definition load_line (today : string) (set : gset string) (line : string) : gset string :=
  let name := substr line 0%N (find line ","%char 0%N) in
  let date := substr line (size_add (find line ","%char 0%N) 1) npos in
  let date := substr date 0%N (find date ","%char 0%N) in
  if String.eqb date today then {[name]} ∪ set else set.

Definition loadAttendance (sys : System) : System :=
  match attendance_file sys with
  | None => sys
  | Some contents =>
      {| attendance_file := attendance_file sys;
         attendance_set :=
           fold_left (load_line (current_date sys)) (getlines contents EmptyString)
                     (attendance_set sys);
         last_mark_time := last_mark_time sys;
         current_date := current_date sys |}
  end.

End LegacyLedger.

(** The earlier variant as a program: constructor, [loadKnownFaces],
    [runAttendance] as called from the menu, and [main]. *)
Module LegacyProgram.

(** A file of the photos directory; [photo_image] is what [imread] returns,
    given by the 100x100 grey matrix [recognizeFace] derives from it, [None]
    for an empty image. *)
Record PhotoFile := {
  photo_is_regular_file : bool;
  photo_stem : string;
  photo_image : option Mat
}.

(** [loadKnownFaces(face_images, face_names)]: every regular file with a
    non-empty image is pushed, under its whole stem. *)
Definition loadKnownFaces (entries : list PhotoFile) : list (string * Mat) :=
  omap (fun e =>
          if photo_is_regular_file e
          then match photo_image e with
               | Some img => Some (photo_stem e, img)
               | None => None
               end
          else None) entries.

(** What the program reads; [photos] is [None] when the directory is
    missing. *)
Record Environment := {
  cascade_loads : bool;
  ledger : option string;
  photos : option (list PhotoFile);
  today : string
}.

(** The constructor: [None] for [exit(-1)].  The gallery is not loaded
    here. *)
Definition construct (env : Environment) : option System :=
  if negb (cascade_loads env) then None
  else Some (LegacyLedger.loadAttendance
               {| attendance_file := ledger env; attendance_set := ∅;
                  last_mark_time := ∅; current_date := today env |}).

Inductive Choice :=
| StartAttendance (camera_opens : bool) (frames : list (MarkEnv * list Mat))
| ViewToday
| Invalid.

(** [runAttendance()] with its call of [loadKnownFaces]; [None] when
    [fs::directory_iterator] throws for a missing directory, which nothing
    catches. *)
Definition runAttendance (env : Environment) (camera_opens : bool)
    (frames : list (MarkEnv * list Mat)) (sys : System) : option (System * list string) :=
  match photos env with
  | None => None
  | Some entries => Some (Legacy.runAttendance (loadKnownFaces entries) camera_opens frames sys)
  end.

Definition menu_step (env : Environment) (acc : option (System * list string))
    (c : Choice) : option (System * list string) :=
  match acc with
  | None => None
  | Some (sys, marked) =>
      match c with
      | StartAttendance camera_opens frames =>
          match runAttendance env camera_opens frames sys with
          | None => None
          | Some (sys', names) => Some (sys', marked ++ names)
          end
      | ViewToday | Invalid => Some (sys, marked)
      end
  end.

(** [main()]: [None] when the process has ended before the choices are used
    up; otherwise the state and the names [markAttendance] was called with. *)
Definition main (env : Environment) (choices : list Choice)
    : option (System * list string) :=
  match construct env with
  | None => None
  | Some sys => fold_left (menu_step env) choices (Some (sys, []))
  end.

End LegacyProgram.

(** ** Further vocabulary *)

(** [c] occurs in [s]. *)
Fixpoint contains (c : ascii) (s : string) : bool :=
  match s with
  | EmptyString => false
  | String a s' => Ascii.eqb a c || contains c s'
  end.

(** [s.size()] as a [size_t]. *)
Definition size (s : string) : N := N.of_nat (String.length s).

(** The characters of [s] before the first one that is in [chars]. *)
Fixpoint prefix_before (chars : list ascii) (s : string) : string :=
  match s with
  | EmptyString => EmptyString
  | String a s' =>
      if existsb (Ascii.eqb a) chars then EmptyString
      else String a (prefix_before chars s')
  end.

(** The separators at which [inferName] cuts a file name. *)
Definition separators : list ascii := ["_"%char; "-"%char; " "%char].

(** The number of occurrences of [c] in [s]. *)
Fixpoint count_char (c : ascii) (s : string) : nat :=
  match s with
  | EmptyString => 0%nat
  | String a s' => ((if Ascii.eqb a c then 1 else 0) + count_char c s')%nat
  end.

(** The text of a ledger line, without the newline. *)
Definition record_text (r : AttendanceRecord) : string :=
  rec_name r +:+ "," +:+ rec_date r +:+ "," +:+ rec_day r.

Definition comma : ascii := ","%char.
Definition newline : ascii := "010"%char.

(** The contents of a file made of the given lines, each ended by a newline. *)
Definition file_of_lines (ls : list string) : string :=
  foldr (fun l acc => l +:+ String newline acc) EmptyString ls.

(** The state in which the constructor calls [loadAttendance]. *)
Definition fresh_system (file : option string) (date : string) : System :=
  {| attendance_file := file; attendance_set := ∅; last_mark_time := ∅;
     current_date := date |}.

(** A call of [markAttendance] whose record survives a restart: the file
    opens, and the name has neither a comma nor a newline and is short enough
    for the line to be a [std::string]. *)
Definition durable_call (today : string) (call : MarkEnv * string) : Prop :=
  file_opens call.1 = true
  /\ contains comma call.2 = false
  /\ contains newline call.2 = false
  /\ (size call.2 + size today + 5 < npos)%N.

(** The text written for a sequence of records. *)
Definition records_text (rs : list AttendanceRecord) : string :=
  foldr (fun r acc => record_line r +:+ acc) EmptyString rs.

(** The names inserted into the today-set by a sequence of writes. *)
Definition inserted (ws : list Effect) : list string :=
  omap (fun w => match w with SetInsert n => Some n | _ => None end) ws.

(** The faces of the usable entries that are enrolled under the name [n], in
    directory order. *)
Definition faces_named (n : string) (entries : list DirEntry) : list Mat :=
  omap (fun e => if usable e && String.eqb (inferName (stem e)) n
                 then extracted_face e else None) entries.

(** * Properties *)

(** ** Comparison *)

Lemma Qltb_lt (x y : Q) : Qltb x y = true <-> (x < y)%Q.
Proof. unfold Qltb, Qlt. apply Z.ltb_lt. Qed.

Lemma Qltb_ge (x y : Q) : Qltb x y = false <-> (y <= x)%Q.
Proof. unfold Qltb, Qle. apply Z.ltb_ge. Qed.

(** ** The string helpers on small inputs *)

Example inferName_cuts_at_separator : inferName "alice_01" = "alice".
Proof. reflexivity. Qed.

Example inferName_keeps_plain_stem : inferName "bob" = "bob".
Proof. reflexivity. Qed.

Example isImage_ignores_case : isImage ".JPG" = true /\ isImage ".gif" = false.
Proof. split; reflexivity. Qed.

Example getlines_splits :
  getlines ("a,b,c" +:+ String "010"%char "short" +:+ String "010"%char EmptyString)
           EmptyString
  = ["a,b,c"; "short"].
Proof. reflexivity. Qed.

(** A line without two commas is skipped, a line of another day is ignored. *)
Example load_line_cases :
  load_line "2026-10-30" ∅ "Bob,2026-10-30,Fri" = {["Bob"]} ∪ ∅
  /\ load_line "2026-10-30" ∅ "Bob,2026-10-29,Thu" = ∅
  /\ load_line "2026-10-30" ∅ "Bob 2026-10-30" = ∅
  /\ load_line "2026-10-30" ∅ "Bob,2026-10-30" = ∅.
Proof. repeat split; reflexivity. Qed.

(** ** The matcher *)

Section Scan.

Variable threshold : Q.
Variable face : Mat.
Hypothesis threshold_is_double : (threshold <= DBL_MAX)%Q.

Abbreviation dist kv := (face_mse face (snd kv)).
Abbreviation scan := (scan threshold face).
Abbreviation scan_outcome := (scan_outcome threshold face).

Lemma scan_snoc g kv : scan (g ++ [kv]) = recognize_step threshold face (scan g) kv.
Proof. unfold scan. by rewrite fold_left_app. Qed.

Lemma scan_outcome_holds g : scan_outcome g (scan g).
Proof.
  induction g as [|kv g IH] using rev_ind.
  - apply scan_rejects. intros kv Hkv. by apply elem_of_nil in Hkv.
  - rewrite scan_snoc. unfold recognize_step.
    destruct IH as [Hall | pre best post Hg Hlt Hpre Hpost].
    + destruct (Qltb (dist kv) DBL_MAX && Qltb (dist kv) threshold) eqn:E.
      * apply andb_true_iff in E as [_ E2]. apply Qltb_lt in E2.
        apply (scan_accepts _ _ _ g kv []); [done | done | |].
        -- intros kv' Hin. specialize (Hall _ Hin). lra.
        -- intros kv' Hin. by apply elem_of_nil in Hin.
      * apply scan_rejects. intros kv' Hin.
        apply elem_of_app in Hin as [Hin | Hin]; [by apply Hall |].
        apply list_elem_of_singleton in Hin as ->.
        apply andb_false_iff in E as [E | E]; apply Qltb_ge in E; lra.
    + destruct (Qltb (dist kv) (dist best) && Qltb (dist kv) threshold) eqn:E.
      * apply andb_true_iff in E as [E1 E2].
        apply Qltb_lt in E1. apply Qltb_lt in E2.
        apply (scan_accepts _ _ _ g kv []); [done | done | |].
        -- intros kv' Hin. rewrite Hg in Hin.
           apply elem_of_app in Hin as [Hin | Hin].
           ++ specialize (Hpre _ Hin). lra.
           ++ apply elem_of_cons in Hin as [-> | Hin]; [done |].
              specialize (Hpost _ Hin). lra.
        -- intros kv' Hin. by apply elem_of_nil in Hin.
      * apply (scan_accepts _ _ _ pre best (post ++ [kv])); [| done | done |].
        -- rewrite Hg. by rewrite <- app_assoc.
        -- intros kv' Hin. apply elem_of_app in Hin as [Hin | Hin]; [by apply Hpost |].
           apply list_elem_of_singleton in Hin as ->.
           apply andb_false_iff in E as [E | E]; apply Qltb_ge in E; lra.
Qed.

(** The same, as a case distinction on the returned name. *)
Lemma scan_cases (g : list (string * Mat)) :
  ((scan g).1 = "Unknown" /\ forall kv, kv ∈ g -> (threshold <= dist kv)%Q)
  \/ (exists pre kv post,
        g = pre ++ kv :: post /\ (scan g).1 = kv.1 /\ (dist kv < threshold)%Q
        /\ (forall kv', kv' ∈ pre -> (dist kv < dist kv')%Q)
        /\ (forall kv', kv' ∈ g -> (dist kv <= dist kv')%Q)).
Proof.
  pose proof (scan_outcome_holds g) as H.
  remember (scan g) as r eqn:Hr. clear Hr.
  destruct H as [Hall | pre kv post Hg Hlt Hpre Hpost]; [by left |].
  right. exists pre, kv, post. repeat split; try done.
  intros kv' Hin. rewrite Hg in Hin.
  apply elem_of_app in Hin as [Hin | Hin]; [specialize (Hpre _ Hin); lra |].
  apply elem_of_cons in Hin as [-> | Hin]; [lra | by apply Hpost].
Qed.

End Scan.

Lemma in_middle {A} (pre post : list A) (x : A) : x ∈ pre ++ x :: post.
Proof. apply elem_of_app. right. by left. Qed.

Lemma recognizeFace_with_scan thr face g : recognizeFace_with thr face g = (scan thr face g).1.
Proof. reflexivity. Qed.

Lemma rejection_threshold_is_double : (rejection_threshold <= DBL_MAX)%Q.
Proof. unfold Qle. vm_compute. discriminate. Qed.

(** Raising the threshold keeps an accepted result. *)
Lemma scan_threshold_mono (face : Mat) (g : list (string * Mat)) (thr thr' : Q) :
  (thr <= thr')%Q -> (thr' <= DBL_MAX)%Q ->
  (scan thr face g).1 = "Unknown" \/ (scan thr' face g).1 = (scan thr face g).1.
Proof.
  intros Hle Hd'.
  assert (Hd : (thr <= DBL_MAX)%Q) by lra.
  destruct (scan_cases thr face Hd g)
    as [[Hu _] | (pre & kv & post & Hg & Hres & Hlt & Hpre & Hmin)]; [by left |].
  right. rewrite Hres.
  destruct (scan_cases thr' face Hd' g)
    as [[_ Hall] | (pre' & kv' & post' & Hg' & Hres' & Hlt' & Hpre' & Hmin')].
  - assert (kv ∈ g) as Hin by (rewrite Hg; apply in_middle).
    specialize (Hall _ Hin). lra.
  - rewrite Hres'.
    (* both name the first minimal entry of [g] *)
    assert (kv ∈ g) as Hin by (rewrite Hg; apply in_middle).
    assert (kv' ∈ g) as Hin' by (rewrite Hg'; apply in_middle).
    pose proof (Hmin _ Hin') as H1. pose proof (Hmin' _ Hin) as H2.
    assert (Hsplit : pre ++ kv :: post = pre' ++ kv' :: post') by congruence.
    destruct (decide (length pre = length pre')) as [Heq | Hne].
    + apply app_inj_1 in Hsplit as [_ Hc]; [| done]. by injection Hc as -> _.
    + exfalso.
      destruct (decide (length pre < length pre')%nat) as [Hl | Hl].
      * assert (kv ∈ pre') as Hk.
        { apply list_elem_of_lookup. exists (length pre).
          assert ((pre' ++ kv' :: post') !! length pre = Some kv) as Hlk.
          { rewrite <- Hsplit. by rewrite list_lookup_middle. }
          by rewrite lookup_app_l in Hlk. }
        specialize (Hpre' _ Hk). lra.
      * assert (kv' ∈ pre) as Hk.
        { apply list_elem_of_lookup. exists (length pre').
          assert ((pre ++ kv :: post) !! length pre' = Some kv') as Hlk.
          { rewrite Hsplit. by rewrite list_lookup_middle. }
          rewrite lookup_app_l in Hlk; [done | lia]. }
        specialize (Hpre _ Hk). lra.
Qed.

(** For the distance the code computes ([face_mse]): a gallery identity
    strictly nearer than every other one and below the threshold is returned;
    when no gallery entry is below the threshold the result is "Unknown"; and
    under a larger threshold the result is the same unless it was "Unknown"
    before. *)
Theorem threshold_monotonicity (face : Mat) (g : list (string * Mat)) (thr : Q) :
  (thr <= DBL_MAX)%Q ->
  (forall A sigA,
      (A, sigA) ∈ g ->
      (face_mse face sigA < thr)%Q ->
      (forall B sigB, (B, sigB) ∈ g -> B ≠ A ->
                      (face_mse face sigA < face_mse face sigB)%Q) ->
      recognizeFace_with thr face g = A)
  /\ ((forall B sigB, (B, sigB) ∈ g -> (thr <= face_mse face sigB)%Q) ->
      recognizeFace_with thr face g = "Unknown")
  /\ (forall thr', (thr <= thr')%Q -> (thr' <= DBL_MAX)%Q ->
        recognizeFace_with thr face g = "Unknown"
        \/ recognizeFace_with thr' face g = recognizeFace_with thr face g).
Proof.
  intros Hd. rewrite !recognizeFace_with_scan. split; [| split].
  - intros A sigA HA Hlt Hstrict.
    destruct (scan_cases thr face Hd g)
      as [[_ Hall] | (pre & [B sigB] & post & Hg & Hres & HltB & _ & Hmin)].
    + specialize (Hall _ HA). simpl in Hall. lra.
    + rewrite Hres. simpl in *.
      destruct (decide (B = A)) as [-> | Hne]; [done | exfalso].
      assert ((B, sigB) ∈ g) as HB by (rewrite Hg; apply in_middle).
      specialize (Hstrict _ _ HB Hne). specialize (Hmin _ HA). simpl in Hmin. lra.
  - intros Hall.
    destruct (scan_cases thr face Hd g)
      as [[Hu _] | (pre & [B sigB] & post & Hg & _ & HltB & _)]; [done | exfalso].
    assert ((B, sigB) ∈ g) as HB by (rewrite Hg; apply in_middle).
    specialize (Hall _ _ HB). simpl in HltB. lra.
  - intros thr' Hle Hd'. rewrite recognizeFace_with_scan.
    by apply scan_threshold_mono.
Qed.

Lemma face_mse_flat_0_3 : face_mse (flat 0) (flat 3) = (360000 # 40000)%Q.
Proof. vm_compute. reflexivity. Qed.

Lemma face_mse_flat_0_200 : face_mse (flat 0) (flat 200) = (10200000 # 40000)%Q.
Proof. vm_compute. reflexivity. Qed.

Lemma threshold_monotonicity_witness :
  recognizeFace (flat 0) [("B", flat 200); ("A", flat 3)] = "A"
  /\ recognizeFace_with 5 (flat 0) [("B", flat 200); ("A", flat 3)] = "Unknown"
  /\ (recognizeFace_with 5 (flat 0) [("B", flat 200); ("A", flat 3)] = "Unknown"
      \/ recognizeFace (flat 0) [("B", flat 200); ("A", flat 3)]
         = recognizeFace_with 5 (flat 0) [("B", flat 200); ("A", flat 3)]).
Proof.
  assert (H5 : (5 <= DBL_MAX)%Q) by (unfold Qle; vm_compute; discriminate).
  split; [| split].
  - apply (proj1 (threshold_monotonicity (flat 0) [("B", flat 200); ("A", flat 3)]
                    rejection_threshold rejection_threshold_is_double) "A" (flat 3)).
    + apply elem_of_cons. right. apply elem_of_cons. by left.
    + rewrite face_mse_flat_0_3. unfold Qlt. vm_compute. reflexivity.
    + intros B sigB HB Hne.
      apply elem_of_cons in HB as [HB | HB].
      * injection HB as -> ->. rewrite face_mse_flat_0_3, face_mse_flat_0_200.
        unfold Qlt. vm_compute. reflexivity.
      * apply elem_of_cons in HB as [HB | HB].
        -- injection HB as -> _. exfalso. apply Hne. reflexivity.
        -- apply elem_of_nil in HB. destruct HB.
  - apply (proj1 (proj2 (threshold_monotonicity (flat 0) [("B", flat 200); ("A", flat 3)]
                           5 H5))).
    intros B sigB HB.
    apply elem_of_cons in HB as [HB | HB].
    + injection HB as -> ->. rewrite face_mse_flat_0_200. unfold Qle. vm_compute. discriminate.
    + apply elem_of_cons in HB as [HB | HB]; [| apply elem_of_nil in HB; destruct HB].
      injection HB as -> ->. rewrite face_mse_flat_0_3. unfold Qle. vm_compute. discriminate.
  - apply (proj2 (proj2 (threshold_monotonicity (flat 0) [("B", flat 200); ("A", flat 3)]
                           5 H5)) rejection_threshold).
    + unfold Qle. vm_compute. discriminate.
    + apply rejection_threshold_is_double.
Defined.

(** *** Iteration order and ties *)





(** *** The distance that is computed *)

(** C2 on the code: between a query of intensity 140 and a gallery signature
    of intensity 100 every squared difference is [40 * 40 = 1600], so the mean
    of the squared differences is above the threshold of 1500; but
    [diff.mul(diff)] is an 8-bit matrix whose elements are cut off at 255, so
    the code arrives at the distance 255 and accepts the gallery entry. *)
Theorem recognizeFace_squares_saturate :
  (mean_squared_error (flat 140) (flat 100) == 1600)%Q
  /\ (rejection_threshold <= mean_squared_error (flat 140) (flat 100))%Q
  /\ (face_mse (flat 140) (flat 100) == 255)%Q
  /\ recognizeFace (flat 140) [("A", flat 100)] = "A".
Proof.
  split; [vm_compute; reflexivity |]. split; [vm_compute; discriminate |].
  split; vm_compute; reflexivity.
Qed.

(** C7 on the code, for the distance of the claim (the mean of the squared
    differences).  The query is black.  "B" (intensity 16, mean squared
    difference 256) is strictly nearer than "A" (intensity 20, 400) and below
    the threshold, but both 8-bit squares are cut off at 255, the code sees a
    tie and returns "A", which the scan meets first.  And the only entry "C"
    (intensity 50, 2500) is above the threshold, yet the code returns "C" and
    not "Unknown".  Same defect as in C2. *)
Theorem nearest_by_squared_error_is_missed :
  (mean_squared_error (flat 0) (flat 16) == 256)%Q
  /\ (mean_squared_error (flat 0) (flat 20) == 400)%Q
  /\ (mean_squared_error (flat 0) (flat 16) < rejection_threshold)%Q
  /\ (face_mse (flat 0) (flat 16) == face_mse (flat 0) (flat 20))%Q
  /\ recognizeFace (flat 0) [("A", flat 20); ("B", flat 16)] = "A"
  /\ (rejection_threshold <= mean_squared_error (flat 0) (flat 50))%Q
  /\ recognizeFace (flat 0) [("C", flat 50)] = "C".
Proof.
  split; [vm_compute; reflexivity |]. split; [vm_compute; reflexivity |].
  split; [vm_compute; reflexivity |]. split; [vm_compute; reflexivity |].
  split; [vm_compute; reflexivity |]. split; [vm_compute; discriminate |].
  vm_compute; reflexivity.
Qed.

(** With 8-bit products no distance can reach the threshold: for a query of
    200x200 pixels every gallery is answered with one of its identities. *)
Lemma sum_saturated_bound (a b : Mat) :
  0 <= Cv.sum (Cv.mul a b) <= 255 * Z.of_nat (length a).
Proof.
  revert b. induction a as [|x a IH]; intros [|y b]; cbn [Cv.mul zip_with Cv.sum foldr length];
    try lia.
  specialize (IH b). unfold Cv.mul, Cv.sum in IH.
  generalize (x * y). intros p. unfold Cv.saturate_u8.
  set (rest := foldr Z.add 0 _) in *. clearbody rest.
  rewrite Nat2Z.inj_succ. lia.
Qed.

Lemma face_mse_below_threshold (face known : Mat) :
  Z.of_nat (length face) <= 200 * 200 -> (face_mse face known < rejection_threshold)%Q.
Proof.
  intros Hlen. unfold face_mse, rejection_threshold.
  change 1500%Q with (inject_Z 1500).
  pose proof (sum_saturated_bound (Cv.absdiff face known) (Cv.absdiff face known)) as Hs.
  assert (length (Cv.absdiff face known) <= length face)%nat as Hl.
  { unfold Cv.absdiff. rewrite length_zip_with. lia. }
  set (s := Cv.sum _) in *. clearbody s.
  apply Qlt_shift_div_r; [reflexivity |].
  rewrite <- inject_Z_mult, <- Zlt_Qlt. lia.
Qed.

Lemma recognizeFace_never_rejects (face : Mat) (g : list (string * Mat)) :
  Z.of_nat (length face) <= 200 * 200 -> g ≠ [] ->
  exists kv, kv ∈ g /\ recognizeFace face g = kv.1.
Proof.
  intros Hlen Hg. unfold recognizeFace. rewrite recognizeFace_with_scan.
  destruct (scan_cases _ face rejection_threshold_is_double g)
    as [[_ Hall] | (pre & kv & post & Heq & Hres & _)].
  - destruct g as [|kv g]; [done |].
    assert (kv ∈ kv :: g) as Hin by (by left).
    specialize (Hall _ Hin).
    pose proof (face_mse_below_threshold face kv.2 Hlen). lra.
  - exists kv. split; [rewrite Heq; apply in_middle | done].
Qed.

(** The earlier variant divides the sum of the absolute differences: its
    distance is a mean absolute difference. *)
Lemma legacy_distance_is_absolute :
  (Legacy.face_distance (Cv.filled 100 100 255) (Cv.filled 100 100 0) == 255)%Q
  /\ Legacy.recognizeFace (Cv.filled 100 100 255) [("A", Cv.filled 100 100 0)] = "A".
Proof. split; vm_compute; reflexivity. Qed.

(** ** The ledger *)

(** The cases of one call of [markAttendance]. *)
Lemma markAttendance_cases (env : MarkEnv) (name : string) (sys : System) :
  current_date ((markAttendance env name sys).1) = current_date sys
  /\ attendance_set sys ⊆ attendance_set ((markAttendance env name sys).1)
  /\ (appended ((markAttendance env name sys).2) = []
      \/ ((name ∉ attendance_set sys)
          /\ attendance_set ((markAttendance env name sys).1) = {[name]} ∪ attendance_set sys
          /\ appended ((markAttendance env name sys).2)
             = [ {| rec_name := name; rec_date := current_date sys;
                    rec_day := getCurrentDay (tm_wday env) |} ])).
Proof.
  unfold markAttendance.
  destruct (cooldown_active sys name (steady_now env)); cbn.
  { split; [done |]. split; [set_solver | by left]. }
  case_bool_decide as Hin; cbn.
  { split; [done |]. split; [set_solver | by left]. }
  destruct (file_opens env); cbn.
  - split; [done |]. split; [set_solver |]. by right.
  - split; [done |]. split; [set_solver |]. by left.
Qed.

Lemma mark_all_cons env name rest sys :
  mark_all ((env, name) :: rest) sys
  = ((mark_all rest (markAttendance env name sys).1).1,
     (markAttendance env name sys).2 ++ (mark_all rest (markAttendance env name sys).1).2).
Proof.
  cbn [mark_all]. destruct (markAttendance env name sys) as [sys1 w1]. cbn [fst snd].
  by destruct (mark_all rest sys1).
Qed.

Lemma mark_all_ledger (calls : list (MarkEnv * string)) (sys : System) :
  current_date ((mark_all calls sys).1) = current_date sys
  /\ attendance_set sys ⊆ attendance_set ((mark_all calls sys).1)
  /\ NoDup (map rec_name (appended ((mark_all calls sys).2)))
  /\ (forall r, r ∈ appended ((mark_all calls sys).2) ->
        (rec_name r ∉ attendance_set sys)
        /\ rec_name r ∈ attendance_set ((mark_all calls sys).1)
        /\ rec_date r = current_date sys).
Proof.
  revert sys. induction calls as [|[env name] rest IH]; intros sys.
  - cbn. split; [done |]. split; [done |]. split; [constructor |].
    intros r Hr. by apply elem_of_nil in Hr.
  - rewrite mark_all_cons. cbn [fst snd].
    pose proof (markAttendance_cases env name sys) as (Hd1 & Hs1 & Hw1).
    destruct (IH (markAttendance env name sys).1) as (Hd2 & Hs2 & Hnd & Hrec).
    set (sys1 := (markAttendance env name sys).1) in *.
    set (w1 := (markAttendance env name sys).2) in *.
    set (sys2 := (mark_all rest sys1).1) in *.
    set (w2 := (mark_all rest sys1).2) in *.
    unfold appended in *. rewrite omap_app.
    split; [congruence |]. split; [set_solver |].
    destruct Hw1 as [Hw | (Hnew & Hset & Hw)]; rewrite Hw; cbn [app].
    + split; [done |]. intros r Hr. destruct (Hrec r Hr) as (Ha & Hb & Hc).
      repeat split; [set_solver | done | congruence].
    + split.
      * cbn [map]. apply NoDup_cons. split; [| done].
        intros Hin. apply list_elem_of_fmap in Hin as (r & Hname & Hr).
        destruct (Hrec r Hr) as (Ha & _). apply Ha. rewrite <- Hname, Hset. set_solver.
      * intros r Hr. apply elem_of_cons in Hr as [-> | Hr]; cbn.
        -- repeat split; [done | set_solver].
        -- destruct (Hrec r Hr) as (Ha & Hb & Hc).
           repeat split; [set_solver | done | congruence].
Qed.

(** C1: in a run whose today-set comes from [loadAttendance], whatever calls
    of [markAttendance] follow, no two appended records have the same
    (identity, date) pair; every appended record carries the date of the run
    and an identity that was not in the loaded today-set; and a single call
    appends a record only for a name absent from the today-set, which it
    inserts in that same call. *)
Theorem ledger_uniqueness (file : option string) (date : string)
    (calls : list (MarkEnv * string)) :
  let sys0 := loadAttendance {| attendance_file := file; attendance_set := ∅;
                                last_mark_time := ∅; current_date := date |} in
  NoDup (map record_key (appended ((mark_all calls sys0).2)))
  /\ (forall r, r ∈ appended ((mark_all calls sys0).2) ->
        rec_date r = date /\ (rec_name r ∉ attendance_set sys0))
  /\ (forall env name sys r,
        r ∈ appended ((markAttendance env name sys).2) ->
        rec_name r = name
        /\ (name ∉ attendance_set sys)
        /\ name ∈ attendance_set ((markAttendance env name sys).1)
        /\ appended ((markAttendance env name sys).2) = [r]).
Proof.
  intros sys0.
  assert (Hdate : current_date sys0 = date).
  { unfold sys0, loadAttendance. cbn. by destruct file. }
  pose proof (mark_all_ledger calls sys0) as (_ & _ & Hnd & Hrec).
  split; [| split].
  - apply (NoDup_fmap_1 fst).
    rewrite <- list_fmap_compose.
    replace (fst ∘ record_key) with rec_name by done. exact Hnd.
  - intros r Hr. destruct (Hrec r Hr) as (Ha & _ & Hc). split; [congruence | done].
  - intros env name sys r Hr.
    pose proof (markAttendance_cases env name sys)
      as (_ & _ & [Hw | (Hnew & Hset & Hw)]); rewrite Hw in Hr |- *.
    + by apply elem_of_nil in Hr.
    + apply list_elem_of_singleton in Hr as ->. cbn.
      repeat split; [done | set_solver].
Qed.

(** The file grows by exactly the lines of the appended records. *)
Lemma markAttendance_file (env : MarkEnv) (name : string) (sys : System) :
  attendance_file ((markAttendance env name sys).1)
  = with_records (attendance_file sys) (appended ((markAttendance env name sys).2)).
Proof.
  unfold markAttendance.
  destruct (cooldown_active sys name (steady_now env)); [done |].
  case_bool_decide; [done |]. by destruct (file_opens env).
Qed.

Lemma mark_all_file (calls : list (MarkEnv * string)) (sys : System) :
  attendance_file ((mark_all calls sys).1)
  = with_records (attendance_file sys) (appended ((mark_all calls sys).2)).
Proof.
  revert sys. induction calls as [|[env name] rest IH]; intros sys; [done |].
  rewrite mark_all_cons. cbn [fst snd]. rewrite IH, markAttendance_file.
  unfold appended, with_records. by rewrite omap_app, fold_left_app.
Qed.

Lemma ledger_uniqueness_witness :
  NoDup (map record_key
           (appended (mark_all [(at_time 0 true, "Alice"); (at_time 11000000000 true, "Alice");
                                (at_time 12000000000 true, "Bob")] bob_marked).2))
  /\ ("Alice" ∉ attendance_set bob_marked).
Proof.
  pose proof (ledger_uniqueness
                (Some ("Bob,2026-10-30,Fri" +:+ String "010"%char EmptyString)) "2026-10-30"
                [(at_time 0 true, "Alice"); (at_time 11000000000 true, "Alice");
                 (at_time 12000000000 true, "Bob")]) as (Hnd & Hrec & _).
  split; [exact Hnd |].
  apply (Hrec {| rec_name := "Alice"; rec_date := "2026-10-30"; rec_day := "Fri" |}).
  vm_compute. by left.
Defined.

(** C4, refuted: when the file cannot be opened nothing is appended, and the
    name is in the today-set all the same. *)
Lemma insert_survives_failed_append :
  ("Alice" ∉ attendance_set empty_day)
  /\ "Alice" ∈ attendance_set ((markAttendance (at_time 0 false) "Alice" empty_day).1)
  /\ attendance_file ((markAttendance (at_time 0 false) "Alice" empty_day).1)
     = attendance_file empty_day
  /\ (markAttendance (at_time 0 false) "Alice" empty_day).2
     = [CooldownWrite "Alice" 0; SetInsert "Alice"].
Proof.
  split; [set_solver |]. split; [| split; reflexivity].
  cbn. set_solver.
Qed.

(** A call for a name that is absent from the today-set and not held back. *)
Lemma markAttendance_fresh (env : MarkEnv) (X : string) (sys : System) :
  X ∉ attendance_set sys ->
  cooldown_active sys X (steady_now env) = false ->
  let r := {| rec_name := X; rec_date := current_date sys;
              rec_day := getCurrentDay (tm_wday env) |} in
  X ∈ attendance_set ((markAttendance env X sys).1)
  /\ (file_opens env = true ->
      (markAttendance env X sys).2
      = [CooldownWrite X (steady_now env); SetInsert X; FileAppend r]
      /\ attendance_file ((markAttendance env X sys).1)
         = append_to (attendance_file sys) (record_line r))
  /\ (file_opens env = false ->
      (markAttendance env X sys).2 = [CooldownWrite X (steady_now env); SetInsert X]
      /\ attendance_file ((markAttendance env X sys).1) = attendance_file sys).
Proof.
  intros Hnew Hcool r. unfold markAttendance. rewrite Hcool.
  rewrite bool_decide_eq_false_2 by done.
  destruct (file_opens env); cbn.
  - split; [set_solver |]. split; [done | discriminate].
  - split; [set_solver |]. split; [discriminate | done].
Qed.

(** C4, as the code has it: for a name absent from the today-set (and not held
    back by the cooldown) the name is inserted into the set first and the
    record is appended afterwards, if the file opens; if it does not open,
    nothing is appended and the name stays in the set. *)
Theorem markAttendance_insert_then_append (env : MarkEnv) (X : string) (sys : System) :
  X ∉ attendance_set sys ->
  cooldown_active sys X (steady_now env) = false ->
  let r := {| rec_name := X; rec_date := current_date sys;
              rec_day := getCurrentDay (tm_wday env) |} in
  X ∈ attendance_set ((markAttendance env X sys).1)
  /\ (file_opens env = true ->
      (markAttendance env X sys).2
      = [CooldownWrite X (steady_now env); SetInsert X; FileAppend r]
      /\ attendance_file ((markAttendance env X sys).1)
         = append_to (attendance_file sys) (record_line r))
  /\ (file_opens env = false ->
      (markAttendance env X sys).2 = [CooldownWrite X (steady_now env); SetInsert X]
      /\ attendance_file ((markAttendance env X sys).1) = attendance_file sys).
Proof. exact (markAttendance_fresh env X sys). Qed.

Lemma markAttendance_insert_then_append_witness :
  (markAttendance (at_time 0 true) "Alice" empty_day).2
  = [CooldownWrite "Alice" 0; SetInsert "Alice";
     FileAppend {| rec_name := "Alice"; rec_date := "2026-10-30"; rec_day := "Fri" |}]
  /\ attendance_file ((markAttendance (at_time 0 true) "Alice" empty_day).1)
     = Some ("Alice,2026-10-30,Fri" +:+ String "010"%char EmptyString).
Proof.
  assert (Hnew : "Alice" ∉ attendance_set empty_day) by set_solver.
  assert (Hcool : cooldown_active empty_day "Alice" (steady_now (at_time 0 true)) = false)
    by reflexivity.
  exact (proj1 (proj2 (markAttendance_insert_then_append
                         (at_time 0 true) "Alice" empty_day Hnew Hcool)) eq_refl).
Defined.

(** ** The verification loop *)

Lemma dwell_reached (d : Z) : (3 <=? whole_seconds d) = true <-> seconds 3 <= d.
Proof.
  unfold whole_seconds, seconds. rewrite Z.leb_le.
  destruct (Z.le_gt_cases 0 d) as [Hd | Hd].
  - rewrite Z.quot_div_nonneg by lia.
    pose proof (Z.div_mod d (1 * 1000000000) ltac:(lia)) as Hdm.
    pose proof (Z.mod_pos_bound d (1 * 1000000000) ltac:(lia)) as Hb.
    lia.
  - pose proof (Z.quot_opp_l d (1 * 1000000000) ltac:(lia)) as Ho.
    pose proof (Z.quot_pos (- d) (1 * 1000000000) ltac:(lia) ltac:(lia)) as Hp.
    lia.
Qed.

Lemma dwell_not_reached (d : Z) : (3 <=? whole_seconds d) = false <-> d < seconds 3.
Proof.
  rewrite <- not_true_iff_false, dwell_reached. lia.
Qed.

Lemma verify_all_cons o os sys tr :
  verify_all (o :: os) sys tr
  = let step := verify o sys tr in
    let rest := verify_all os step.1.1 step.1.2 in
    (rest.1.1, rest.1.2, step.2 :: rest.2).
Proof.
  cbn [verify_all]. destruct (verify o sys tr) as [[sys1 tr1] r]. cbn [fst snd].
  by destruct (verify_all os sys1 tr1) as [[sys2 tr2] rs].
Qed.

Lemma verify_all_app os1 os2 sys tr :
  verify_all (os1 ++ os2) sys tr
  = let first := verify_all os1 sys tr in
    let second := verify_all os2 first.1.1 first.1.2 in
    (second.1.1, second.1.2, first.2 ++ second.2).
Proof.
  revert sys tr. induction os1 as [|o os1 IH]; intros sys tr.
  - cbn. by destruct (verify_all os2 sys tr) as [[? ?] ?].
  - rewrite <- app_comm_cons, !verify_all_cons. cbn zeta. by rewrite IH.
Qed.

(** The tracked name after a frame depends on that frame alone. *)
Lemma candidate_after_verify o sys tr :
  candidate_name (verify o sys tr).1.2
  = if String.eqb (detected_name o) "Unknown" then "" else detected_name o.
Proof.
  unfold verify.
  destruct (String.eqb (detected_name o) "Unknown") eqn:Hu; cbn; [done |].
  destruct (String.eqb (candidate_name tr) (detected_name o)) eqn:Hc; cbn; [| done].
  apply String.eqb_eq in Hc.
  destruct (3 <=? _); [| done].
  case_bool_decide; [done |].
  destruct (verified_today tr); cbn; [done |].
  by destruct (markAttendance _ _ _).
Qed.

Lemma candidate_at_streak_start (X : string) (pre : list Observation) sys :
  X ≠ "Unknown" -> X ≠ "" ->
  last (detected_name <$> pre) ≠ Some X ->
  candidate_name (verify_all pre sys tracker_init).1.2 ≠ X.
Proof.
  intros HU HE Hlast.
  destruct pre as [|o pre _] using rev_ind; [by cbn |].
  rewrite verify_all_app. cbn zeta. cbn [fst snd].
  rewrite verify_all_cons. cbn zeta. cbn [verify_all fst snd].
  rewrite candidate_after_verify.
  rewrite fmap_app in Hlast. change (detected_name <$> [o]) with [detected_name o] in Hlast.
  rewrite last_snoc in Hlast.
  destruct (String.eqb (detected_name o) "Unknown"); congruence.
Qed.

(** The first frame of a streak: the tracker adopts the name and the time. *)
Lemma verify_streak_start (X : string) o sys tr :
  X ≠ "Unknown" -> detected_name o = X -> candidate_name tr ≠ X ->
  verify o sys tr
  = (sys, {| candidate_name := X; candidate_start := loop_now o;
             verified_today := false |}, quiet None).
Proof.
  intros HU Hd Hc. unfold verify. rewrite Hd.
  apply String.eqb_neq in HU. rewrite HU. cbn.
  apply String.eqb_neq in Hc. by rewrite Hc.
Qed.

(** A later frame of the streak. *)
Lemma verify_streak_next (X : string) (t0 : Z) (v : bool) o sys :
  X ≠ "Unknown" -> detected_name o = X ->
  let tr := {| candidate_name := X; candidate_start := t0; verified_today := v |} in
  verify o sys tr
  = if 3 <=? whole_seconds (loop_now o - t0) then
      if bool_decide (X ∈ attendance_set sys) then
        (sys, {| candidate_name := X; candidate_start := t0; verified_today := true |},
         quiet (Some (MarkedForToday X)))
      else if negb v then
        ((markAttendance (mark_env o) X sys).1,
         {| candidate_name := X; candidate_start := t0; verified_today := true |},
         {| banner := Some (Successful X); mark_calls := [X];
            writes := (markAttendance (mark_env o) X sys).2 |})
      else (sys, tr, quiet (Some (Successful X)))
    else (sys, tr, quiet (Some (Verifying X))).
Proof.
  intros HU Hd tr. unfold verify. rewrite Hd. cbn [candidate_name candidate_start tr].
  apply String.eqb_neq in HU. rewrite HU, String.eqb_refl. cbn [negb].
  destruct (3 <=? _); [| done].
  case_bool_decide; [done |].
  destruct v; cbn; [done |].
  by destruct (markAttendance _ _ _).
Qed.

(** While every frame is less than three seconds after the start of the
    streak, nothing but the "Verifying" banner happens. *)
Lemma streak_below_dwell (X : string) (t0 : Z) (v : bool) (os : list Observation) sys :
  X ≠ "Unknown" ->
  Forall (fun o => detected_name o = X) os ->
  (forall o, o ∈ os -> loop_now o - t0 < seconds 3) ->
  let tr := {| candidate_name := X; candidate_start := t0; verified_today := v |} in
  verify_all os sys tr = (sys, tr, (fun _ => quiet (Some (Verifying X))) <$> os).
Proof.
  intros HU Hall Hshort tr. subst tr. induction os as [|o os IH]; [done |].
  apply Forall_cons in Hall as [Hd Hall].
  rewrite verify_all_cons. cbn zeta.
  rewrite (verify_streak_next X t0 v o sys HU Hd).
  rewrite (proj2 (dwell_not_reached _)) by (apply Hshort; by left).
  cbn [fst snd]. rewrite IH; [done | done |].
  intros o' Ho'. apply Hshort. by right.
Qed.

(** The calls of [markAttendance] during the rest of a streak. *)
Lemma streak_mark_calls (X : string) (t0 : Z) (os : list Observation) :
  X ≠ "Unknown" ->
  Forall (fun o => detected_name o = X) os ->
  forall sys v,
    all_mark_calls
      (verify_all os sys {| candidate_name := X; candidate_start := t0;
                            verified_today := v |}).2
    = if reaches_dwell t0 os && negb v && negb (bool_decide (X ∈ attendance_set sys))
      then [X] else [].
Proof.
  intros HU Hall. induction os as [|o os IH]; intros sys v; [done |].
  apply Forall_cons in Hall as [Hd Hall]. specialize (IH Hall).
  rewrite verify_all_cons. cbn zeta.
  rewrite (verify_streak_next X t0 v o sys HU Hd).
  unfold all_mark_calls. cbn [reaches_dwell existsb].
  destruct (3 <=? whole_seconds (loop_now o - t0)) eqn:Hdw.
  - rewrite (proj2 (Z.leb_le _ _)) by (by apply dwell_reached).
    case_bool_decide as Hin.
    + cbn [fst snd map concat mark_calls quiet app].
      fold (all_mark_calls (verify_all os sys
             {| candidate_name := X; candidate_start := t0; verified_today := true |}).2).
      rewrite IH. cbn [negb orb andb]. by rewrite !andb_false_r.
    + destruct v; cbn [negb fst snd map concat mark_calls quiet app].
      * fold (all_mark_calls (verify_all os sys
             {| candidate_name := X; candidate_start := t0; verified_today := true |}).2).
        rewrite IH. cbn [negb orb andb]. by rewrite !andb_false_r.
      * fold (all_mark_calls (verify_all os (markAttendance (mark_env o) X sys).1
             {| candidate_name := X; candidate_start := t0; verified_today := true |}).2).
        rewrite IH. cbn [negb orb andb]. by rewrite andb_false_r.
  - apply dwell_not_reached in Hdw.
    rewrite (proj2 (Z.leb_gt _ _)) by done.
    cbn [fst snd map concat mark_calls quiet app orb].
    fold (all_mark_calls (verify_all os sys
             {| candidate_name := X; candidate_start := t0; verified_today := v |}).2).
    by rewrite IH.
Qed.

Lemma quiet_frames_do_nothing (b : option Banner) (os : list Observation) :
  all_mark_calls ((fun _ => quiet b) <$> os) = []
  /\ all_writes ((fun _ => quiet b) <$> os) = [].
Proof. unfold all_mark_calls, all_writes. by induction os. Qed.

Lemma reaches_dwell_true (t0 : Z) (os : list Observation) :
  (exists o, o ∈ os /\ seconds 3 <= loop_now o - t0) -> reaches_dwell t0 os = true.
Proof.
  intros (o & Ho & Hd). unfold reaches_dwell. apply existsb_exists.
  exists o. split; [by apply list_elem_of_In | by apply Z.leb_le].
Qed.

(** C3, refuted: "Bob" is in the ledger for today; he is then identified for
    three seconds without interruption and [markAttendance] is not called at
    all, so no second attempt time is written either. *)
Lemma marked_identity_is_not_attempted :
  "Bob" ∈ attendance_set bob_marked
  /\ all_mark_calls (verify_all [sees "Bob" 0; sees "Bob" 3000000000] bob_marked
                                tracker_init).2 = []
  /\ last_mark_time (verify_all [sees "Bob" 0; sees "Bob" 3000000000] bob_marked
                                tracker_init).1.1 = ∅
  /\ banner <$> (verify_all [sees "Bob" 0; sees "Bob" 3000000000] bob_marked
                            tracker_init).2
     = [None; Some (MarkedForToday "Bob")].
Proof.
  assert (Hset : attendance_set bob_marked = {["Bob"]} ∪ ∅) by reflexivity.
  split; [rewrite Hset; set_solver |].
  rewrite verify_all_cons. cbn zeta.
  rewrite (verify_streak_start "Bob") by done. cbn [fst snd].
  rewrite verify_all_cons. cbn zeta.
  rewrite (verify_streak_next "Bob") by done.
  rewrite (proj2 (dwell_reached _)) by (unfold seconds; cbn; lia).
  rewrite bool_decide_eq_true_2 by (rewrite Hset; set_solver).
  by cbn.
Qed.

(** C3, as the code has it: for a non-empty identity X, while every frame of
    a streak of X is less than three seconds after the first one, the loop
    calls [markAttendance] for nobody and writes nothing (ledger, today-set
    and cooldown table are as before); once a frame of the streak is three
    seconds or more after the first one, the streak has called
    [markAttendance] exactly once, for X, if X was not in the today-set, and
    not at all if X was already in it. *)
Theorem dwell_requirement (X : string) (pre : list Observation) (o0 : Observation)
    (rest : list Observation) (sys0 : System) :
  X ≠ "Unknown" -> X ≠ "" ->
  last (detected_name <$> pre) ≠ Some X ->
  detected_name o0 = X ->
  Forall (fun o => detected_name o = X) rest ->
  let before := verify_all pre sys0 tracker_init in
  let during := verify_all (o0 :: rest) before.1.1 before.1.2 in
  ((forall o, o ∈ rest -> loop_now o - loop_now o0 < seconds 3) ->
   all_mark_calls during.2 = [] /\ all_writes during.2 = []
   /\ during.1.1 = before.1.1)
  /\ ((exists o, o ∈ rest /\ seconds 3 <= loop_now o - loop_now o0) ->
      all_mark_calls during.2
      = if bool_decide (X ∈ attendance_set before.1.1) then [] else [X]).
Proof.
  intros HU HE Hlast Hd Hall before during.
  pose proof (candidate_at_streak_start X pre sys0 HU HE Hlast) as Hc.
  fold before in Hc. subst during.
  rewrite verify_all_cons. cbn zeta.
  rewrite (verify_streak_start X o0 _ _ HU Hd Hc). cbn [fst snd].
  split.
  - intros Hshort.
    rewrite (streak_below_dwell X (loop_now o0) false rest _ HU Hall Hshort).
    cbn [fst snd].
    destruct (quiet_frames_do_nothing (Some (Verifying X)) rest) as [Hc1 Hc2].
    unfold all_mark_calls, all_writes in *. cbn [map concat quiet mark_calls writes app].
    by rewrite Hc1, Hc2.
  - intros Hlong.
    pose proof (streak_mark_calls X (loop_now o0) rest HU Hall before.1.1 false) as Hcalls.
    unfold all_mark_calls in *. cbn [map concat quiet mark_calls app].
    rewrite Hcalls, (reaches_dwell_true _ _ Hlong). cbn [andb negb].
    by case_bool_decide.
Qed.

Lemma dwell_requirement_witness :
  (all_mark_calls (verify_all [sees "Alice" 0; sees "Alice" 2900000000] empty_day
                              tracker_init).2 = []
   /\ all_writes (verify_all [sees "Alice" 0; sees "Alice" 2900000000] empty_day
                             tracker_init).2 = []
   /\ (verify_all [sees "Alice" 0; sees "Alice" 2900000000] empty_day
                  tracker_init).1.1 = empty_day)
  /\ all_mark_calls (verify_all [sees "Alice" 0; sees "Alice" 3000000000] empty_day
                                tracker_init).2 = ["Alice"].
Proof.
  assert (HU : "Alice" ≠ "Unknown") by discriminate.
  assert (HE : "Alice" ≠ "") by discriminate.
  assert (Hlast : last (detected_name <$> []) ≠ Some "Alice") by discriminate.
  assert (Hall : forall t, Forall (fun o => detected_name o = "Alice") [sees "Alice" t]).
  { intros t. apply Forall_cons_2; [reflexivity | apply Forall_nil_2]. }
  split.
  - apply (proj1 (dwell_requirement "Alice" [] (sees "Alice" 0) [sees "Alice" 2900000000]
                    empty_day HU HE Hlast eq_refl (Hall _))).
    intros o Ho. apply list_elem_of_singleton in Ho as ->. unfold seconds. cbn. lia.
  - refine (eq_trans
              (proj2 (dwell_requirement "Alice" [] (sees "Alice" 0)
                        [sees "Alice" 3000000000] empty_day HU HE Hlast eq_refl (Hall _))
                     _) _).
    + exists (sees "Alice" 3000000000). split; [by left | unfold seconds; cbn; lia].
    + reflexivity.
Defined.

(** *** The cooldown table and the today-set *)

Lemma loadAttendance_consistent (sys : System) :
  last_mark_time sys = ∅ -> cooldown_consistent (loadAttendance sys).
Proof.
  intros Hm n [t Ht]. unfold loadAttendance in Ht.
  destruct (attendance_file sys); cbn in Ht; rewrite Hm, lookup_empty in Ht; done.
Qed.

Lemma markAttendance_consistent (env : MarkEnv) (name : string) (sys : System) :
  cooldown_consistent sys -> cooldown_consistent (markAttendance env name sys).1.
Proof.
  intros Hc. unfold markAttendance.
  destruct (cooldown_active sys name (steady_now env)); [done |].
  assert (Hins : forall set, attendance_set sys ⊆ set -> name ∈ set ->
            forall n, is_Some (<[name := steady_now env]> (last_mark_time sys) !! n) -> n ∈ set).
  { intros set Hsub Hname n Hn. destruct (decide (name = n)) as [<- | Hne]; [done |].
    rewrite lookup_insert_ne in Hn by done. apply Hsub, Hc, Hn. }
  case_bool_decide as Hin.
  - intros n Hn. cbn in *. by apply (Hins (attendance_set sys)).
  - destruct (file_opens env); intros n Hn; cbn in *;
      apply (Hins ({[name]} ∪ attendance_set sys)); set_solver.
Qed.

Lemma verify_consistent (o : Observation) (sys : System) (tr : Tracker) :
  cooldown_consistent sys -> cooldown_consistent (verify o sys tr).1.1.
Proof.
  intros Hc. unfold verify.
  destruct (negb (String.eqb (detected_name o) "Unknown")); [| done].
  destruct (negb (String.eqb (candidate_name tr) (detected_name o))); [done |].
  destruct (3 <=? _); [| done].
  case_bool_decide; [done |].
  destruct (negb (verified_today tr)); [| done].
  pose proof (markAttendance_consistent (mark_env o) (candidate_name tr) sys Hc) as Hm.
  by destruct (markAttendance (mark_env o) (candidate_name tr) sys).
Qed.

(** In a consistent state the cooldown never holds back a name that is not in
    the today-set. *)
Lemma consistent_not_held_back (sys : System) (X : string) (now : Z) :
  cooldown_consistent sys -> X ∉ attendance_set sys -> cooldown_active sys X now = false.
Proof.
  intros Hc Hnew. unfold cooldown_active.
  destruct (last_mark_time sys !! X) as [t|] eqn:Ht; [| done].
  exfalso. apply Hnew, Hc. by rewrite Ht.
Qed.

(** *** The banner after the mark *)

(** In the frame after the one that marked X the today-set already holds X,
    so the first branch is taken: the banner changes and nothing is marked. *)
Lemma banner_after_marking (X : string) (t0 : Z) (o o' : Observation) (sys : System) :
  X ≠ "Unknown" ->
  X ∉ attendance_set sys ->
  cooldown_active sys X (steady_now (mark_env o)) = false ->
  detected_name o = X -> detected_name o' = X ->
  seconds 3 <= loop_now o - t0 -> seconds 3 <= loop_now o' - t0 ->
  let first := verify o sys {| candidate_name := X; candidate_start := t0;
                               verified_today := false |} in
  let second := verify o' first.1.1 first.1.2 in
  banner first.2 = Some (Successful X) /\ mark_calls first.2 = [X]
  /\ banner second.2 = Some (MarkedForToday X) /\ mark_calls second.2 = [].
Proof.
  intros HU Hnew Hcool Hd Hd' Ht Ht' first second. subst second first.
  rewrite (verify_streak_next X t0 false o sys HU Hd).
  rewrite (proj2 (dwell_reached _)) by done.
  rewrite bool_decide_eq_false_2 by done. cbn [negb fst snd banner mark_calls].
  rewrite (verify_streak_next X t0 true o' _ HU Hd').
  rewrite (proj2 (dwell_reached _)) by done.
  rewrite bool_decide_eq_true_2; [done |].
  by destruct (markAttendance_fresh (mark_env o) X sys Hnew Hcool) as [Hin _].
Qed.

Lemma verify_tracker_consistent (o : Observation) (sys : System) (tr : Tracker) :
  cooldown_consistent sys -> tracker_consistent sys tr ->
  tracker_consistent (verify o sys tr).1.1 (verify o sys tr).1.2.
Proof.
  intros Hc Ht. unfold verify.
  destruct (negb (String.eqb (detected_name o) "Unknown")); [| by intros ?].
  destruct (negb (String.eqb (candidate_name tr) (detected_name o))); [by intros ? |].
  destruct (3 <=? _); [| done].
  case_bool_decide as Hin; [by intros _ |].
  destruct (verified_today tr) eqn:Hv; cbn [negb]; [done |].
  pose proof (markAttendance_fresh (mark_env o) (candidate_name tr) sys Hin
                (consistent_not_held_back _ _ _ Hc Hin)) as [Hset _].
  destruct (markAttendance (mark_env o) (candidate_name tr) sys). by intros _.
Qed.

(** In every state the loop can reach, a frame that shows "Attendance
    Successful" has just marked the name, and the next frame of the same
    streak shows "Attendance Marked For Today" and marks nothing. *)
Lemma success_banner_lasts_one_frame (X : string) (o o' : Observation)
    (sys : System) (tr : Tracker) :
  cooldown_consistent sys -> tracker_consistent sys tr ->
  banner (verify o sys tr).2 = Some (Successful X) ->
  detected_name o' = X -> loop_now o <= loop_now o' ->
  mark_calls (verify o sys tr).2 = [X]
  /\ banner (verify o' (verify o sys tr).1.1 (verify o sys tr).1.2).2
     = Some (MarkedForToday X)
  /\ mark_calls (verify o' (verify o sys tr).1.1 (verify o sys tr).1.2).2 = [].
Proof.
  intros Hc Ht Hb Hd' Hle.
  assert (candidate_name tr = X /\ detected_name o = X /\ X ≠ "Unknown"
          /\ seconds 3 <= loop_now o - candidate_start tr
          /\ (X ∉ attendance_set sys) /\ verified_today tr = false)
    as (Hcand & Hd & HU & Hdw & Hin & Hv).
  { unfold verify in Hb.
    destruct (String.eqb (detected_name o) "Unknown") eqn:Hu; cbn [negb] in *; [done |].
    destruct (String.eqb (candidate_name tr) (detected_name o)) eqn:Hcand; cbn [negb] in *;
      [| done].
    destruct (3 <=? whole_seconds (loop_now o - candidate_start tr)) eqn:Hdw; [| done].
    apply dwell_reached in Hdw. apply String.eqb_eq in Hcand. apply String.eqb_neq in Hu.
    case_bool_decide as Hin; [done |].
    destruct (verified_today tr) eqn:Hv; cbn [negb] in *.
    - exfalso. by apply Hin, Ht.
    - destruct (markAttendance (mark_env o) (candidate_name tr) sys) as [sys' ws].
      cbn [snd banner] in Hb. injection Hb as HX.
      repeat split; congruence. }
  destruct tr as [c t0 v]. cbn in Hcand, Hdw, Hv. subst c v.
  pose proof (banner_after_marking X t0 o o' sys HU Hin
                (consistent_not_held_back _ _ _ Hc Hin) Hd Hd' Hdw ltac:(lia))
    as (_ & Hcalls & Hb2 & Hcalls2).
  done.
Qed.

(** C5 on the code: "Alice" is identified without interruption; the frame at
    three seconds marks her and shows "Attendance Successful: Alice", and the
    very next frame of the same streak shows "Attendance Marked For Today:
    Alice" instead.  [markAttendance] is called in the second frame only. *)
Theorem success_banner_is_replaced :
  let streak := [sees "Alice" 0; sees "Alice" 3000000000; sees "Alice" 3010000000] in
  banner <$> (verify_all streak empty_day tracker_init).2
  = [None; Some (Successful "Alice"); Some (MarkedForToday "Alice")]
  /\ mark_calls <$> (verify_all streak empty_day tracker_init).2 = [[]; ["Alice"]; []]
  /\ banner_text (Successful "Alice") = "Attendance Successful: Alice"
  /\ banner_text (MarkedForToday "Alice") = "Attendance Marked For Today: Alice".
Proof. cbn zeta. repeat split; vm_compute; reflexivity. Qed.

(** *** Interrupted streaks *)

(** For a non-empty name the frame after an interruption starts a new streak
    with the time of that frame. *)
Lemma streak_restarts_after_unknown (X : string) (o1 o2 o3 : Observation) sys tr :
  X ≠ "Unknown" -> X ≠ "" ->
  detected_name o1 = X -> detected_name o2 = "Unknown" -> detected_name o3 = X ->
  let run := verify_all [o1; o2; o3] sys tr in
  run.1.2 = {| candidate_name := X; candidate_start := loop_now o3;
               verified_today := false |}
  /\ (mark_calls <$> drop 1 run.2) = [[]; []].
Proof.
  intros HU HE H1 H2 H3 run. subst run.
  rewrite !verify_all_cons. cbn zeta. cbn [verify_all fst snd drop].
  set (s1 := verify o1 sys tr).
  assert (Hs2 : verify o2 s1.1.1 s1.1.2
                = (s1.1.1, {| candidate_name := ""; candidate_start := candidate_start s1.1.2;
                              verified_today := false |}, quiet None)).
  { unfold verify. by rewrite H2. }
  rewrite Hs2. cbn [fst snd].
  rewrite (verify_streak_start X o3) by (done || (cbn; congruence)).
  done.
Qed.

(** C6 on the code: the gallery identity is the empty string, which is also
    the value [candidate_name.clear()] leaves behind.  After (X, Unknown, X)
    the third frame is taken for a continuation: the start time is still that
    of the first frame, and since five seconds have passed the third frame
    marks X at once. *)
Theorem empty_identity_keeps_its_timer :
  let frames := [sees "" 0; sees "Unknown" 1000000000; sees "" 5000000000] in
  inferName (stem nameless_photo) = ""
  /\ loadKnownFaces (Some [nameless_photo]) = Some (<["" := flat 0]> ∅)
  /\ recognizeFace (flat 0) [("", flat 0)] = ""
  /\ candidate_start (verify_all frames empty_day tracker_init).1.2 = 0
  /\ mark_calls <$> (verify_all frames empty_day tracker_init).2 = [[]; []; [""]]
  /\ appended (all_writes (verify_all frames empty_day tracker_init).2)
     = [ {| rec_name := ""; rec_date := "2026-10-30"; rec_day := "Fri" |} ].
Proof.
  cbn zeta. split; [reflexivity |]. split; [reflexivity |].
  repeat split; vm_compute; reflexivity.
Qed.

(** *** Frames and observations *)

(** The frame loop is the verification logic applied to what the matcher
    reports for the non-empty frames. *)
Lemma run_frames_verify_all known_faces frames sys tr :
  run_frames known_faces frames sys tr
  = verify_all (observe known_faces <$> filter (fun f => frame_empty f = false) frames)
               sys tr.
Proof.
  revert sys tr. induction frames as [|f frames IH]; intros sys tr; [done |].
  cbn [run_frames]. destruct (frame_empty f) eqn:He.
  - rewrite filter_cons_False by (rewrite He; discriminate). apply IH.
  - rewrite filter_cons_True by done. cbn [fmap list_fmap verify_all].
    destruct (verify (observe known_faces f) sys tr) as [[sys1 tr1] r].
    by rewrite IH.
Qed.

(** *** The sentinel is never marked *)

Lemma quiet_spares_unknown b : spares_unknown (quiet b).
Proof. split; intros x Hx; by apply elem_of_nil in Hx. Qed.

Lemma verify_spares_unknown o sys tr : spares_unknown (verify o sys tr).2.
Proof.
  unfold verify.
  destruct (String.eqb (detected_name o) "Unknown") eqn:Hu; cbn [negb];
    [apply quiet_spares_unknown |].
  destruct (String.eqb (candidate_name tr) (detected_name o)) eqn:Hc; cbn [negb];
    [| apply quiet_spares_unknown].
  apply String.eqb_eq in Hc. apply String.eqb_neq in Hu. rewrite <- Hc in Hu.
  destruct (3 <=? _); [| apply quiet_spares_unknown].
  case_bool_decide; [apply quiet_spares_unknown |].
  destruct (verified_today tr); cbn [negb]; [apply quiet_spares_unknown |].
  pose proof (markAttendance_cases (mark_env o) (candidate_name tr) sys) as (_ & _ & Hw).
  destruct (markAttendance (mark_env o) (candidate_name tr) sys) as [sys' ws].
  cbn [fst snd] in *. split; cbn [mark_calls writes].
  - intros n Hn. by apply list_elem_of_singleton in Hn as ->.
  - intros r Hr. destruct Hw as [Hw | (_ & _ & Hw)]; rewrite Hw in Hr.
    + by apply elem_of_nil in Hr.
    + by apply list_elem_of_singleton in Hr as ->.
Qed.

Lemma run_frames_spare_unknown known_faces frames sys tr :
  Forall spares_unknown (run_frames known_faces frames sys tr).2.
Proof.
  revert sys tr. induction frames as [|f frames IH]; intros sys tr; cbn [run_frames].
  - constructor.
  - destruct (frame_empty f); [apply IH |].
    pose proof (verify_spares_unknown (observe known_faces f) sys tr) as Hv.
    destruct (verify (observe known_faces f) sys tr) as [[sys1 tr1] r].
    specialize (IH sys1 tr1).
    destruct (run_frames known_faces frames sys1 tr1) as [[sys2 tr2] rs].
    by constructor.
Qed.

Lemma elem_of_concat {A} (x : A) (ls : list (list A)) :
  x ∈ concat ls -> exists l, l ∈ ls /\ x ∈ l.
Proof.
  induction ls as [|l ls IH]; cbn [concat]; intros H.
  - by apply elem_of_nil in H.
  - apply elem_of_app in H as [H | H].
    + exists l. split; [by left | done].
    + destruct (IH H) as (l' & Hin & Hx). exists l'. split; [by right | done].
Qed.

Lemma appended_concat (wss : list (list Effect)) (r : AttendanceRecord) :
  r ∈ appended (concat wss) -> exists ws, ws ∈ wss /\ r ∈ appended ws.
Proof.
  induction wss as [|ws wss IH]; cbn [concat].
  - intros H. by apply elem_of_nil in H.
  - unfold appended in *. rewrite omap_app. intros H.
    apply elem_of_app in H as [H | H].
    + exists ws. split; [by left | done].
    + destruct (IH H) as (ws' & Hin & Hr). exists ws'. split; [by right | done].
Qed.

(** C10: whatever the frames, [runAttendance] never calls [markAttendance]
    with "Unknown" and appends no record for "Unknown"; after every frame the
    tracked name is the detected name if that is not "Unknown", and is
    cleared otherwise. *)
Theorem unknown_is_never_marked (known_faces : list (string * Mat))
    (camera_opens : bool) (frames : list Frame) (sys : System) :
  ("Unknown" ∉ all_mark_calls (runAttendance known_faces camera_opens frames sys).2)
  /\ (forall r, r ∈ appended (all_writes (runAttendance known_faces camera_opens frames sys).2) ->
               rec_name r ≠ "Unknown")
  /\ (forall o s tr,
        candidate_name (verify o s tr).1.2
        = if String.eqb (detected_name o) "Unknown" then "" else detected_name o).
Proof.
  assert (Hall : Forall spares_unknown (runAttendance known_faces camera_opens frames sys).2).
  { unfold runAttendance. destruct camera_opens; [| constructor].
    pose proof (run_frames_spare_unknown known_faces frames sys tracker_init) as H.
    by destruct (run_frames known_faces frames sys tracker_init) as [[sys' tr'] rs]. }
  rewrite Forall_forall in Hall.
  split; [| split].
  - intros Hin. unfold all_mark_calls in Hin.
    apply elem_of_concat in Hin as (calls & Hcalls & Hn).
    apply list_elem_of_fmap in Hcalls as (fr & -> & Hfr).
    by apply (proj1 (Hall fr Hfr) "Unknown").
  - intros r Hr. unfold all_writes in Hr.
    apply appended_concat in Hr as (ws & Hws & Hr).
    apply list_elem_of_fmap in Hws as (fr & -> & Hfr).
    by apply (proj2 (Hall fr Hfr)).
  - intros o s tr. apply candidate_after_verify.
Qed.

Lemma unknown_is_never_marked_witness :
  "Unknown" ∉ all_mark_calls
                (runAttendance [("Alice", flat 0)] true
                   [shows (flat 0) 0; shows (flat 0) 3000000000] empty_day).2.
Proof.
  exact (proj1 (unknown_is_never_marked [("Alice", flat 0)] true
                  [shows (flat 0) 0; shows (flat 0) 3000000000] empty_day)).
Defined.

(** ** Enrolment *)

Lemma load_entry_unusable acc e : usable e = false -> load_entry acc e = acc.
Proof.
  unfold usable, load_entry. intros H.
  destruct (is_regular_file e); [| done].
  destruct (isImage (extension e)); [| done].
  destruct (extracted_face e) as [face|]; [| done].
  cbn in H. discriminate H.
Qed.

Lemma load_entries_unusable entries acc :
  Forall (fun e => usable e = false) entries -> fold_left load_entry entries acc = acc.
Proof.
  revert acc. induction entries as [|e entries IH]; intros acc Hall; [done |].
  apply Forall_cons in Hall as [He Hall]. cbn [fold_left].
  rewrite load_entry_unusable by done. by apply IH.
Qed.

(** The counter is zero exactly when nothing has been inserted. *)
Lemma load_entries_counter entries (acc : gmap string Mat * nat) :
  (acc.2 = 0%nat \/ acc.1 ≠ ∅) ->
  (fold_left load_entry entries acc).2 = 0%nat
  \/ (fold_left load_entry entries acc).1 ≠ ∅.
Proof.
  revert acc. induction entries as [|e entries IH]; intros acc Hacc; [done |].
  cbn [fold_left]. apply IH. unfold load_entry.
  destruct (is_regular_file e); [| done].
  destruct (isImage (extension e)); [| done].
  destruct (extracted_face e) as [face|]; [| done].
  right. cbn [fst]. apply insert_non_empty.
Qed.

(** The newer variant ([main.cpp]): when the photos directory yields no
    usable face signature, the constructor ends in [exit(EXIT_FAILURE)], so
    [main] never reaches the menu and no frame is processed; and a system that
    has been constructed has a non-empty gallery. *)
Theorem empty_gallery_is_fatal (env : Environment) :
  (no_usable_face (photos env) ->
   construct env = ExitFailure
   /\ forall order choices, main order env choices = None)
  /\ (forall sys known_faces,
        construct env = Constructed sys known_faces -> known_faces ≠ ∅).
Proof.
  split.
  - intros Hno.
    assert (Hload : loadKnownFaces (photos env) = None).
    { unfold loadKnownFaces. destruct (photos env) as [entries|]; [| done].
      cbn in Hno. by rewrite load_entries_unusable. }
    assert (Hc : construct env = ExitFailure).
    { unfold construct. rewrite Hload. by destruct (cascade_loads env). }
    split; [done |]. intros order choices. unfold main. by rewrite Hc.
  - intros sys known_faces. unfold construct.
    destruct (cascade_loads env); cbn [negb]; [| done].
    unfold loadKnownFaces. destruct (photos env) as [entries|]; [| done].
    pose proof (load_entries_counter entries (∅, 0%nat) (or_introl eq_refl)) as Hcnt.
    destruct (fold_left load_entry entries (∅, 0%nat)) as [m loaded]. cbn [fst snd] in Hcnt.
    destruct (loaded =? 0)%nat eqn:Hz; [done |].
    apply Nat.eqb_neq in Hz. intros [= _ <-]. by destruct Hcnt.
Qed.

Lemma empty_gallery_is_fatal_witness :
  construct {| cascade_loads := true; ledger := None;
               photos := Some [ {| is_regular_file := true; extension := ".txt";
                                   stem := "notes"; extracted_face := None |} ];
               today := "2026-10-30" |} = ExitFailure.
Proof.
  apply (proj1 (empty_gallery_is_fatal _)).
  cbn. apply Forall_cons_2; [reflexivity | apply Forall_nil_2].
Defined.

(** The earlier variant loads the gallery inside [runAttendance] and, when it
    is empty, returns to the menu without processing any frame. *)
Lemma legacy_empty_gallery_returns camera_opens frames sys :
  Legacy.runAttendance [] camera_opens frames sys = (sys, []).
Proof. reflexivity. Qed.

(** The earlier variant has no dwell time and marks whatever name the matcher
    returns, the sentinel included. *)
Lemma legacy_marks_at_once :
  (Legacy.runAttendance [("A", Cv.filled 100 100 0)] true
     [ (at_time 0 true, [Cv.filled 100 100 0]) ] empty_day).2 = ["A"].
Proof. vm_compute. reflexivity. Qed.

(** A photos directory that holds one file which is no image. *)
Lemma legacy_no_image_no_gallery :
  LegacyProgram.loadKnownFaces
    [ {| LegacyProgram.photo_is_regular_file := true; LegacyProgram.photo_stem := "notes";
         LegacyProgram.photo_image := None |} ] = [].
Proof. reflexivity. Qed.

(** C9, refuted for the earlier variant: the photos directory yields no
    image, the gallery is empty, and the program is not ended: the session
    that was started returns to the menu, the next choices are served, and
    [main] ends regularly with the state the constructor built. *)
Lemma legacy_empty_gallery_is_not_fatal :
  LegacyProgram.main
    {| LegacyProgram.cascade_loads := true; LegacyProgram.ledger := None;
       LegacyProgram.photos :=
         Some [ {| LegacyProgram.photo_is_regular_file := true;
                   LegacyProgram.photo_stem := "notes";
                   LegacyProgram.photo_image := None |} ];
       LegacyProgram.today := "2026-10-30" |}
    [ LegacyProgram.StartAttendance true [(at_time 0 true, [[0]])];
      LegacyProgram.ViewToday;
      LegacyProgram.StartAttendance true [(at_time 1 true, [[0]])] ]
  = Some ({| attendance_file := None; attendance_set := ∅; last_mark_time := ∅;
             current_date := "2026-10-30" |}, []).
Proof. reflexivity. Qed.

Lemma legacy_menu_with_empty_gallery (env : LegacyProgram.Environment)
    (entries : list LegacyProgram.PhotoFile) (choices : list LegacyProgram.Choice)
    (sys : System) (marked : list string) :
  LegacyProgram.photos env = Some entries ->
  LegacyProgram.loadKnownFaces entries = [] ->
  fold_left (LegacyProgram.menu_step env) choices (Some (sys, marked))
  = Some (sys, marked).
Proof.
  intros Hphotos Hempty. induction choices as [|c choices IH]; [done |].
  cbn [fold_left]. rewrite <- IH at 2. f_equal.
  destruct c as [cam frames| |]; cbn [LegacyProgram.menu_step]; try done.
  unfold LegacyProgram.runAttendance. rewrite Hphotos, Hempty.
  rewrite legacy_empty_gallery_returns. by rewrite app_nil_r.
Qed.

(** C9, as the code has it.  In [main.cpp] a photos directory without a
    usable face signature ends the constructor in [exit(EXIT_FAILURE)]:
    [main] never reaches the menu, and a constructed system has a non-empty
    gallery.  In the earlier variant the gallery is loaded inside
    [runAttendance]; when the directory yields no image the session calls
    [markAttendance] for nobody, changes nothing and returns to the menu, and
    the program goes on: it is not ended. *)
Theorem empty_gallery_stops_recognition (env : Environment)
    (legacy_env : LegacyProgram.Environment) :
  (no_usable_face (photos env) ->
   construct env = ExitFailure
   /\ forall order choices, main order env choices = None)
  /\ (forall sys known_faces,
        construct env = Constructed sys known_faces -> known_faces ≠ ∅)
  /\ (forall entries sys,
        LegacyProgram.photos legacy_env = Some entries ->
        LegacyProgram.loadKnownFaces entries = [] ->
        LegacyProgram.construct legacy_env = Some sys ->
        (forall camera_opens frames s,
            LegacyProgram.runAttendance legacy_env camera_opens frames s = Some (s, []))
        /\ forall choices, LegacyProgram.main legacy_env choices = Some (sys, [])).
Proof.
  destruct (empty_gallery_is_fatal env) as [Hfatal Hnonempty].
  split; [exact Hfatal |]. split; [exact Hnonempty |].
  intros entries sys Hphotos Hempty Hcons. split.
  - intros cam frames s. unfold LegacyProgram.runAttendance.
    by rewrite Hphotos, Hempty, legacy_empty_gallery_returns.
  - intros choices. unfold LegacyProgram.main. rewrite Hcons.
    by apply (legacy_menu_with_empty_gallery legacy_env entries).
Qed.

Lemma empty_gallery_stops_recognition_witness :
  construct {| cascade_loads := true; ledger := None;
               photos := Some [ {| is_regular_file := true; extension := ".txt";
                                   stem := "notes"; extracted_face := None |} ];
               today := "2026-10-30" |} = ExitFailure
  /\ LegacyProgram.main
       {| LegacyProgram.cascade_loads := true; LegacyProgram.ledger := None;
          LegacyProgram.photos :=
            Some [ {| LegacyProgram.photo_is_regular_file := true;
                      LegacyProgram.photo_stem := "notes";
                      LegacyProgram.photo_image := None |} ];
          LegacyProgram.today := "2026-10-30" |}
       [ LegacyProgram.StartAttendance true [(at_time 0 true, [[0]])] ]
     = Some ({| attendance_file := None; attendance_set := ∅; last_mark_time := ∅;
                current_date := "2026-10-30" |}, []).
Proof.
  pose proof (empty_gallery_stops_recognition
                {| cascade_loads := true; ledger := None;
                   photos := Some [ {| is_regular_file := true; extension := ".txt";
                                       stem := "notes"; extracted_face := None |} ];
                   today := "2026-10-30" |}
                {| LegacyProgram.cascade_loads := true; LegacyProgram.ledger := None;
                   LegacyProgram.photos :=
                     Some [ {| LegacyProgram.photo_is_regular_file := true;
                               LegacyProgram.photo_stem := "notes";
                               LegacyProgram.photo_image := None |} ];
                   LegacyProgram.today := "2026-10-30" |})
    as (Hmain & _ & Hlegacy).
  split.
  - apply Hmain. cbn. apply Forall_cons_2; [reflexivity | apply Forall_nil_2].
  - apply (proj2 (Hlegacy _ _ eq_refl eq_refl eq_refl)).
Defined.

(** * Further properties of the code *)

(** ** [std::string] operations *)

Lemma append_cons (x : ascii) (a b : string) : String x a +:+ b = String x (a +:+ b).
Proof. reflexivity. Qed.

Lemma append_nil (b : string) : EmptyString +:+ b = b.
Proof. reflexivity. Qed.

Lemma length_append (a b : string) :
  String.length (a +:+ b) = (String.length a + String.length b)%nat.
Proof. induction a as [|x a IH]; simpl; [done | by rewrite IH]. Qed.

Lemma size_app (a b : string) : size (a +:+ b) = (size a + size b)%N.
Proof. unfold size. by rewrite length_append, Nat2N.inj_add. Qed.

Lemma size_cons (c : ascii) (s : string) : size (String c s) = (1 + size s)%N.
Proof. unfold size. simpl String.length. rewrite Nat2N.inj_succ. lia. Qed.

(** Characters that differ from [c] are passed over. *)
Lemma find_at_skip_free (c : ascii) (a b : string) (i pos : N) :
  contains c a = false ->
  find_at c (a +:+ b) i pos = find_at c b (i + size a)%N pos.
Proof.
  revert i. induction a as [|x a IH]; intros i Hfree.
  - cbn. f_equal. unfold size. cbn. lia.
  - cbn in Hfree. apply orb_false_iff in Hfree as [Hx Ha].
    rewrite append_cons; cbn [find_at]. rewrite Hx, andb_false_r, IH by done.
    f_equal. rewrite size_cons. lia.
Qed.

(** Characters before [pos] are passed over. *)
Lemma find_at_skip_before (c : ascii) (a b : string) (i pos : N) :
  (i + size a <= pos)%N ->
  find_at c (a +:+ b) i pos = find_at c b (i + size a)%N pos.
Proof.
  revert i. induction a as [|x a IH]; intros i Hle.
  - cbn. f_equal. unfold size. cbn. lia.
  - rewrite size_cons in Hle. rewrite append_cons; cbn [find_at].
    rewrite (proj2 (N.leb_gt pos i)) by lia. cbn [andb].
    rewrite IH by lia. f_equal. rewrite size_cons. lia.
Qed.

Lemma find_at_here (c : ascii) (b : string) (i pos : N) :
  (pos <= i)%N -> find_at c (String c b) i pos = i.
Proof.
  intros Hle. cbn [find_at]. by rewrite (proj2 (N.leb_le pos i)), Ascii.eqb_refl.
Qed.

Lemma find_at_absent (c : ascii) (s : string) (i pos : N) :
  contains c s = false -> find_at c s i pos = npos.
Proof.
  revert i. induction s as [|x s IH]; intros i Hfree; [done |].
  cbn in Hfree. apply orb_false_iff in Hfree as [Hx Hs].
  cbn [find_at]. rewrite Hx, andb_false_r. by apply IH.
Qed.

(** A result other than [npos] is the index of an occurrence. *)
Lemma find_at_range (c : ascii) (s : string) (i pos : N) :
  find_at c s i pos = npos \/ (i <= find_at c s i pos < i + size s)%N.
Proof.
  revert i. induction s as [|x s IH]; intros i; [by left |].
  cbn [find_at]. rewrite size_cons.
  destruct ((pos <=? i)%N && Ascii.eqb x c); [right; lia |].
  destruct (IH (i + 1)%N) as [-> | H]; [by left | right; lia].
Qed.

Lemma substr_prefix (a b : string) : substr (a +:+ b) 0 (size a) = a.
Proof.
  induction a as [|x a IH]; [destruct b; reflexivity |].
  rewrite append_cons, size_cons. cbn [substr N.eqb].
  rewrite (proj2 (N.eqb_neq (1 + size a) 0)) by lia.
  replace (1 + size a - 1)%N with (size a) by lia. by rewrite IH.
Qed.

Lemma substr_drop (a b : string) (n : N) :
  substr (a +:+ b) (size a) n = substr b 0 n.
Proof.
  induction a as [|x a IH]; [done |].
  rewrite size_cons, append_cons. cbn [substr].
  destruct (1 + size a =? 0)%N eqn:E; [apply N.eqb_eq in E; lia |].
  replace (1 + size a - 1)%N with (size a) by lia. apply IH.
Qed.

Lemma substr_all (s : string) (n : N) : (size s <= n)%N -> substr s 0 n = s.
Proof.
  revert n. induction s as [|x s IH]; intros n Hn; [done |].
  rewrite size_cons in Hn. cbn [substr N.eqb].
  rewrite (proj2 (N.eqb_neq n 0)) by lia.
  rewrite IH by lia. reflexivity.
Qed.

Lemma substr_skip (a b : string) (k n : N) :
  substr (a +:+ b) (size a + k) n = substr b k n.
Proof.
  induction a as [|x a IH]; [done |].
  rewrite size_cons, append_cons. cbn [substr].
  rewrite (proj2 (N.eqb_neq (1 + size a + k) 0)) by lia.
  replace (1 + size a + k - 1)%N with (size a + k)%N by lia. apply IH.
Qed.

(** The text up to the first occurrence of a character. *)
Lemma split_at_first (c : ascii) (s : string) :
  contains c s = true ->
  exists a b, s = a +:+ String c b /\ contains c a = false.
Proof.
  induction s as [|x s IH]; [done |]. cbn [contains]. intros H.
  destruct (Ascii.eqb x c) eqn:Hx.
  - apply Ascii.eqb_eq in Hx as ->. by exists EmptyString, s.
  - destruct (IH H) as (a & b & -> & Ha).
    exists (String x a), b. split; [done |]. cbn [contains]. by rewrite Hx, Ha.
Qed.

Lemma count_char_zero (c : ascii) (s : string) :
  count_char c s = 0%nat <-> contains c s = false.
Proof.
  induction s as [|x s IH]; [done |]. cbn [count_char contains].
  destruct (Ascii.eqb x c); cbn [orb]; [split; [lia | done] |].
  rewrite <- IH. lia.
Qed.

Lemma count_char_app (c : ascii) (a b : string) :
  count_char c (a +:+ b) = (count_char c a + count_char c b)%nat.
Proof.
  induction a as [|x a IH]; [done |]. rewrite append_cons. cbn [count_char].
  rewrite IH. lia.
Qed.

(** ** Reading the ledger: [loadAttendance] *)

Lemma size_add_small (n : N) : (n < npos)%N -> size_add n 1 = (n + 1)%N.
Proof. unfold size_add, npos. intros H. apply N.mod_small. lia. Qed.

Lemma size_sub_small (a b : N) : (b <= a < 2 ^ 64)%N -> size_sub a b = (a - b)%N.
Proof.
  intros H. unfold size_sub.
  replace (a + 2 ^ 64 - b)%N with ((a - b) + 1 * 2 ^ 64)%N by lia.
  rewrite N.Div0.mod_add. apply N.mod_small. lia.
Qed.

(** The two positions [loadAttendance] computes for a line that has a comma. *)
Lemma first_comma (a b : string) :
  contains comma a = false -> find (a +:+ String comma b) comma 0 = size a.
Proof.
  intros Ha. unfold find. rewrite find_at_skip_free by done.
  rewrite find_at_here by lia. lia.
Qed.

Lemma second_comma (a b : string) :
  contains comma a = false ->
  find (a +:+ String comma b) comma (size a + 1)
  = find_at comma b (size a + 1) (size a + 1).
Proof.
  intros Ha. unfold find. rewrite find_at_skip_free by done. cbn [find_at].
  rewrite (proj2 (N.leb_gt (size a + 1) (0 + size a))) by lia. cbn [andb].
  by rewrite N.add_0_l.
Qed.

Lemma load_line_short (today : string) (set : gset string) (line : string) :
  (size line < npos)%N ->
  (count_char comma line < 2)%nat ->
  load_line today set line = set.
Proof.
  intros Hsize Hcount. unfold load_line. fold comma.
  destruct (contains comma line) eqn:Hc.
  - destruct (split_at_first comma line Hc) as (a & b & -> & Ha).
    rewrite count_char_app in Hcount. cbn [count_char] in Hcount.
    rewrite Ascii.eqb_refl in Hcount.
    assert (Hb : contains comma b = false) by (apply count_char_zero; lia).
    rewrite size_app, size_cons in Hsize.
    rewrite first_comma by done.
    rewrite size_add_small by lia. rewrite second_comma by done.
    rewrite find_at_absent by done. by rewrite N.eqb_refl, orb_true_r.
  - unfold find at 1. by rewrite find_at_absent.
Qed.

(** X1: A line with fewer than two commas is skipped. *)
Theorem load_line_skips_malformed (today : string) (set : gset string) (line : string) :
  (size line < npos)%N ->
  (count_char comma line < 2)%nat ->
  load_line today set line = set.
Proof. apply load_line_short. Qed.

Lemma load_line_skips_malformed_witness :
  load_line "2026-10-30" {["Bob"]} "Alice;2026-10-30,Fri" = {["Bob"]}.
Proof.
  apply load_line_skips_malformed; [reflexivity | cbn; lia].
Defined.

(** A line that starts with a comma-free name, a comma, a comma-free date and
    a second comma is read as that name and that date, whatever follows. *)
Lemma load_line_fields (today : string) (set : gset string) (name date rest : string) :
  contains comma name = false ->
  contains comma date = false ->
  (size (name +:+ String comma (date +:+ String comma rest)) < npos)%N ->
  load_line today set (name +:+ String comma (date +:+ String comma rest))
  = if String.eqb date today then {[name]} ∪ set else set.
Proof.
  intros Hn Hd Hsize. unfold load_line. fold comma.
  rewrite !size_app, !size_cons, size_app, size_cons in Hsize.
  rewrite first_comma by done.
  rewrite size_add_small by lia. rewrite second_comma by done.
  rewrite find_at_skip_free by done. rewrite find_at_here by lia.
  rewrite (proj2 (N.eqb_neq (size name) npos)) by lia.
  rewrite (proj2 (N.eqb_neq (size name + 1 + size date) npos)) by lia.
  cbn [orb]. rewrite substr_prefix.
  unfold npos in Hsize.
  rewrite (size_sub_small (size name + 1 + size date)) by lia.
  rewrite size_sub_small by lia.
  replace (size name + 1 + size date - size name - 1)%N with (size date) by lia.
  rewrite substr_skip.
  change (substr (String comma (date +:+ String comma rest)) 1 (size date))
    with (substr (date +:+ String comma rest) 0 (size date)).
  by rewrite substr_prefix.
Qed.

(** X3: Whatever the line, a name that [loadAttendance] adds has no comma in it:
    a name with a comma, once written, is not found again on reload. *)
Theorem load_line_adds_comma_free (today : string) (set : gset string) (line n : string) :
  (size line < npos)%N ->
  n ∈ load_line today set line -> n ∈ set \/ contains comma n = false.
Proof.
  intros Hsize Hin. unfold load_line in Hin. fold comma in Hin.
  destruct (contains comma line) eqn:Hc.
  - destruct (split_at_first comma line Hc) as (a & b & -> & Ha).
    rewrite first_comma in Hin by done. rewrite substr_prefix in Hin.
    destruct (_ || _); [by left |].
    destruct (String.eqb _ today); [| by left].
    apply elem_of_union in Hin as [Hin | Hin]; [| by left].
    apply elem_of_singleton in Hin as ->. by right.
  - unfold find at 1 in Hin. rewrite find_at_absent in Hin by done.
    rewrite N.eqb_refl in Hin. by left.
Qed.

Lemma load_line_adds_comma_free_witness :
  "Alice" ∈ ({["Bob"]} : gset string) \/ contains comma "Alice" = false.
Proof.
  apply (load_line_adds_comma_free "2026-10-30" {["Bob"]} "Alice,2026-10-30,Fri" "Alice").
  - reflexivity.
  - change (load_line "2026-10-30" {["Bob"]} "Alice,2026-10-30,Fri")
      with ({["Alice"]} ∪ ({["Bob"]} : gset string)).
    apply elem_of_union. left. by apply elem_of_singleton.
Defined.

(** *** Lines of the file *)

Lemma append_assoc (a b c : string) : (a +:+ b) +:+ c = a +:+ (b +:+ c).
Proof. induction a as [|x a IH]; [done |]. by rewrite !append_cons, IH. Qed.

Lemma append_nil_r (a : string) : a +:+ EmptyString = a.
Proof. induction a as [|x a IH]; [done |]. by rewrite append_cons, IH. Qed.

Lemma contains_app (c : ascii) (a b : string) :
  contains c (a +:+ b) = contains c a || contains c b.
Proof.
  induction a as [|x a IH]; [done |]. rewrite append_cons. cbn [contains].
  by rewrite IH, orb_assoc.
Qed.

(** [getline] delivers the text up to the next newline. *)
Lemma getlines_line (a b cur : string) :
  contains newline a = false ->
  getlines (a +:+ String newline b) cur = (cur +:+ a) :: getlines b EmptyString.
Proof.
  revert cur. induction a as [|x a IH]; intros cur Ha.
  - rewrite append_nil. cbn [getlines]. fold newline. rewrite Ascii.eqb_refl.
    by rewrite append_nil_r.
  - cbn [contains] in Ha. apply orb_false_iff in Ha as [Hx Ha].
    rewrite append_cons. cbn [getlines]. fold newline. rewrite Hx.
    rewrite IH by done. f_equal. by rewrite append_assoc.
Qed.

Lemma getlines_file_of_lines (ls : list string) (rest : string) :
  Forall (fun l => contains newline l = false) ls ->
  getlines (file_of_lines ls +:+ rest) EmptyString = ls ++ getlines rest EmptyString.
Proof.
  induction ls as [|l ls IH]; intros Hall; [done |].
  apply Forall_cons in Hall as [Hl Hall].
  cbn [file_of_lines foldr]. fold (file_of_lines ls).
  rewrite append_assoc, append_cons, getlines_line by done.
  rewrite append_nil, IH by done. done.
Qed.

Lemma record_line_text (r : AttendanceRecord) :
  record_line r = record_text r +:+ String newline EmptyString.
Proof.
  unfold record_line, record_text, newline. by rewrite !append_assoc.
Qed.

Lemma file_of_lines_app (ls1 ls2 : list string) :
  file_of_lines (ls1 ++ ls2) = file_of_lines ls1 +:+ file_of_lines ls2.
Proof.
  induction ls1 as [|l ls1 IH]; [done |].
  cbn [app file_of_lines foldr]. fold (file_of_lines (ls1 ++ ls2)) (file_of_lines ls1).
  by rewrite IH, append_assoc, append_cons.
Qed.

(** Appending records to a file of complete lines gives a file of complete
    lines. *)
Lemma with_records_lines (ls : list string) (rs : list AttendanceRecord) :
  with_records (Some (file_of_lines ls)) rs
  = Some (file_of_lines (ls ++ (record_text <$> rs))).
Proof.
  revert ls. induction rs as [|r rs IH]; intros ls.
  - cbn. by rewrite app_nil_r.
  - change (with_records (Some (file_of_lines ls)) (r :: rs))
      with (with_records (Some (file_of_lines ls +:+ record_line r)) rs).
    assert (Hfile : file_of_lines ls +:+ record_line r
                    = file_of_lines (ls ++ [record_text r])).
    { rewrite file_of_lines_app, record_line_text. by cbn [file_of_lines foldr]. }
    rewrite Hfile, IH. cbn [fmap list_fmap]. by rewrite <- app_assoc.
Qed.

Lemma with_records_none (rs : list AttendanceRecord) :
  rs ≠ [] -> with_records None rs = with_records (Some EmptyString) rs.
Proof. by destruct rs. Qed.

(** *** What a restart reads back *)

Lemma getCurrentDay_plain (w : nat) :
  contains newline (getCurrentDay w) = false /\ (size (getCurrentDay w) <= 3)%N.
Proof. do 8 (destruct w as [|w]; [by vm_compute |]). by vm_compute. Qed.

Lemma record_text_fields (r : AttendanceRecord) :
  record_text r = rec_name r +:+ String comma (rec_date r +:+ String comma (rec_day r)).
Proof. reflexivity. Qed.

(** Reading the lines of clean records of today adds exactly their names. *)
Lemma load_records (today : string) (rs : list AttendanceRecord) (set : gset string) :
  Forall (fun r => rec_date r = today /\ contains comma (rec_name r) = false
                   /\ (size (record_text r) < npos)%N) rs ->
  contains comma today = false ->
  fold_left (load_line today) (record_text <$> rs) set
  = set ∪ list_to_set (rec_name <$> rs).
Proof.
  intros Hall Ht. revert set. induction rs as [|r rs IH]; intros set.
  - cbn. set_solver.
  - apply Forall_cons in Hall as [(Hd & Hn & Hs) Hall].
    cbn [fmap list_fmap fold_left]. fold (record_text <$> rs).
    rewrite (record_text_fields r), load_line_fields;
      [| done | by rewrite Hd | by rewrite <- record_text_fields].
    rewrite Hd, String.eqb_refl. fold (rec_name <$> rs).
    rewrite IH by done. cbn [list_to_set]. set_solver.
Qed.

Lemma markAttendance_durable (env : MarkEnv) (name : string) (sys : System) :
  file_opens env = true ->
  (appended (markAttendance env name sys).2 = []
   /\ attendance_set (markAttendance env name sys).1 = attendance_set sys)
  \/ (appended (markAttendance env name sys).2
      = [ {| rec_name := name; rec_date := current_date sys;
             rec_day := getCurrentDay (tm_wday env) |} ]
      /\ attendance_set (markAttendance env name sys).1 = {[name]} ∪ attendance_set sys).
Proof.
  intros Hopen. unfold markAttendance.
  destruct (cooldown_active sys name (steady_now env)); [by left |].
  case_bool_decide; [by left |]. rewrite Hopen. by right.
Qed.

Lemma plain_record (today name : string) (w : nat) :
  contains newline today = false -> contains newline name = false ->
  (size name + size today + 5 < npos)%N ->
  let r := {| rec_name := name; rec_date := today; rec_day := getCurrentDay w |} in
  contains newline (record_text r) = false /\ (size (record_text r) < npos)%N.
Proof.
  intros Ht Hn Hs r. destruct (getCurrentDay_plain w) as [Hd Hds].
  rewrite record_text_fields. cbn [rec_name rec_date rec_day r].
  rewrite contains_app, size_app, size_cons. cbn [contains].
  rewrite contains_app, size_app, size_cons. cbn [contains].
  rewrite Hn, Ht, Hd. split; [done | lia].
Qed.

Lemma mark_all_durable (calls : list (MarkEnv * string)) (sys : System) :
  contains newline (current_date sys) = false ->
  Forall (durable_call (current_date sys)) calls ->
  attendance_set (mark_all calls sys).1
  = attendance_set sys ∪ list_to_set (rec_name <$> appended (mark_all calls sys).2)
  /\ Forall (fun r => (rec_date r = current_date sys
                       /\ contains comma (rec_name r) = false
                       /\ (size (record_text r) < npos)%N)
                      /\ contains newline (record_text r) = false)
            (appended (mark_all calls sys).2).
Proof.
  intros Ht. revert sys Ht. induction calls as [|[env name] rest IH]; intros sys Ht Hall.
  - cbn. split; [set_solver | constructor].
  - apply Forall_cons in Hall as [(Hopen & Hcomma & Hnl & Hsize) Hall].
    cbn [fst snd] in *. rewrite mark_all_cons. cbn [fst snd].
    pose proof (markAttendance_cases env name sys) as (Hdate & _ & _).
    destruct (IH (markAttendance env name sys).1) as [Hset Hrecs];
      [by rewrite Hdate | by rewrite Hdate |].
    rewrite Hdate in Hrecs. unfold appended in *. rewrite omap_app, fmap_app, Hset.
    destruct (markAttendance_durable env name sys Hopen) as [[Hw Hs] | [Hw Hs]];
      unfold appended in Hw; rewrite Hw, Hs.
    + split; [set_solver | done].
    + split; [cbn; set_solver |]. cbn [app]. apply Forall_cons. split; [| done].
      destruct (plain_record (current_date sys) name (tm_wday env) Ht Hnl Hsize) as [Hp Hb].
      by repeat split.
Qed.

Lemma loadAttendance_lines (ls : list string) (today : string) :
  Forall (fun l => contains newline l = false) ls ->
  attendance_set (loadAttendance (fresh_system (Some (file_of_lines ls)) today))
  = fold_left (load_line today) ls ∅.
Proof.
  intros Hall. unfold loadAttendance, fresh_system. cbn.
  rewrite <- (append_nil_r (file_of_lines ls)), getlines_file_of_lines by done.
  cbn [getlines]. by rewrite app_nil_r.
Qed.

(** X2: The line [markAttendance] writes for a record is read back by
    [loadAttendance]: added to a ledger of complete lines (or to none), it
    is delivered by [getline] as one line and split into the same name and
    date, so the name joins the today-set exactly when the date is the
    current date.  Name and date contain no comma, and no field contains a
    newline. *)
Theorem written_record_is_read_back (old : option (list string)) (today : string)
    (r : AttendanceRecord) :
  (forall ls, old = Some ls -> Forall (fun l => contains newline l = false) ls) ->
  contains comma (rec_name r) = false ->
  contains comma (rec_date r) = false ->
  contains newline (rec_name r) = false ->
  contains newline (rec_date r) = false ->
  contains newline (rec_day r) = false ->
  (size (record_text r) < npos)%N ->
  attendance_set
    (loadAttendance (fresh_system (append_to (file_of_lines <$> old) (record_line r)) today))
  = if String.eqb (rec_date r) today
    then {[rec_name r]}
         ∪ attendance_set (loadAttendance (fresh_system (file_of_lines <$> old) today))
    else attendance_set (loadAttendance (fresh_system (file_of_lines <$> old) today)).
Proof.
  intros Hold Hcn Hcd Hnn Hnd Hny Hsize.
  assert (Hplain : contains newline (record_text r) = false).
  { rewrite record_text_fields, contains_app. cbn [contains].
    rewrite contains_app. cbn [contains]. by rewrite Hnn, Hnd, Hny. }
  assert (Hlines : forall ls,
             Forall (fun l => contains newline l = false) ls ->
             attendance_set
               (loadAttendance
                  (fresh_system (append_to (Some (file_of_lines ls)) (record_line r)) today))
             = load_line today (fold_left (load_line today) ls ∅) (record_text r)).
  { intros ls Hls.
    change (append_to (Some (file_of_lines ls)) (record_line r))
      with (with_records (Some (file_of_lines ls)) [r]).
    rewrite with_records_lines, loadAttendance_lines.
    - by rewrite fold_left_app.
    - apply Forall_app. split; [done |].
      cbn [fmap list_fmap]. apply Forall_cons_2; [done | apply Forall_nil_2]. }
  assert (Hstep : forall set,
             load_line today set (record_text r)
             = if String.eqb (rec_date r) today then {[rec_name r]} ∪ set else set).
  { intros set. by apply load_line_fields. }
  destruct old as [ls|]; cbn [fmap option_fmap option_map].
  - rewrite Hlines, Hstep, loadAttendance_lines by auto. done.
  - change (append_to None (record_line r))
      with (append_to (Some (file_of_lines [])) (record_line r)).
    rewrite Hlines, Hstep by constructor. done.
Qed.

Lemma written_record_is_read_back_witness :
  attendance_set
    (loadAttendance
       (fresh_system
          (append_to (file_of_lines <$> Some ["Bob,2026-10-30,Fri"])
                     (record_line {| rec_name := "Alice"; rec_date := "2026-10-30";
                                     rec_day := "Fri" |}))
          "2026-10-30"))
  = {["Alice"]}
    ∪ attendance_set
        (loadAttendance
           (fresh_system (file_of_lines <$> Some ["Bob,2026-10-30,Fri"]) "2026-10-30")).
Proof.
  apply (written_record_is_read_back (Some ["Bob,2026-10-30,Fri"]) "2026-10-30"
           {| rec_name := "Alice"; rec_date := "2026-10-30"; rec_day := "Fri" |});
    try reflexivity.
  intros ls [= <-]. apply Forall_cons_2; [reflexivity | apply Forall_nil_2].
Defined.

(** Without the condition on newlines the name is not read back: a name with
    a newline in it is written as two lines, and the text after the newline
    is taken for the name. *)
Lemma name_with_newline_is_split :
  attendance_set
    (loadAttendance
       (fresh_system
          (append_to None
             (record_line {| rec_name := "Al" +:+ String newline "ice";
                             rec_date := "2026-10-30"; rec_day := "Fri" |}))
          "2026-10-30"))
  = {["ice"]} ∪ ∅.
Proof. reflexivity. Qed.

(** X4: After a run in which every mark was durable, a restart on the same day
    loads exactly the today-set the run ended with.  The ledger the run
    started from consists of complete lines (or does not exist). *)
Theorem restart_restores_today_set (old : option (list string)) (today : string)
    (calls : list (MarkEnv * string)) :
  (forall ls, old = Some ls -> Forall (fun l => contains newline l = false) ls) ->
  contains comma today = false ->
  contains newline today = false ->
  Forall (durable_call today) calls ->
  let sys0 := loadAttendance (fresh_system (file_of_lines <$> old) today) in
  let sys1 := (mark_all calls sys0).1 in
  attendance_set (loadAttendance (fresh_system (attendance_file sys1) today))
  = attendance_set sys1.
Proof.
  intros Hold Hcomma Hnl Hcalls sys0 sys1.
  assert (Hdate : current_date sys0 = today).
  { unfold sys0, loadAttendance, fresh_system. cbn. by destruct (file_of_lines <$> old). }
  assert (Hfile0 : attendance_file sys0 = file_of_lines <$> old).
  { unfold sys0, loadAttendance, fresh_system. cbn. by destruct (file_of_lines <$> old). }
  destruct (mark_all_durable calls sys0) as [Hset Hrecs];
    [by rewrite Hdate | by rewrite Hdate |].
  fold sys1 in Hset. rewrite Hset.
  unfold sys1 at 1. rewrite mark_all_file, Hfile0.
  rewrite Hdate in Hrecs. apply Forall_and in Hrecs as [Hclean Hplain].
  set (rs := appended (mark_all calls sys0).2) in *.
  assert (Hlines : forall ls,
             Forall (fun l => contains newline l = false) ls ->
             attendance_set (loadAttendance
               (fresh_system (with_records (Some (file_of_lines ls)) rs) today))
             = fold_left (load_line today) ls ∅ ∪ list_to_set (rec_name <$> rs)).
  { intros ls Hls. rewrite with_records_lines, loadAttendance_lines.
    - by rewrite fold_left_app, load_records.
    - apply Forall_app. split; [done |]. by apply Forall_fmap. }
  destruct old as [ls|]; cbn [fmap option_fmap option_map].
  - rewrite Hlines by auto. f_equal. unfold sys0.
    change (Some (file_of_lines ls)) with (file_of_lines <$> Some ls).
    cbn [fmap option_fmap option_map]. by rewrite loadAttendance_lines by auto.
  - destruct rs as [|r rs'] eqn:Hrs.
    + cbn. unfold sys0. cbn. set_solver.
    + rewrite with_records_none by done.
      change EmptyString with (file_of_lines []).
      rewrite Hlines by constructor. cbn [fold_left]. f_equal.
Qed.

Lemma restart_restores_today_set_witness :
  attendance_set
    (loadAttendance
       (fresh_system
          (attendance_file
             (mark_all [(at_time 0 true, "Alice")]
                (loadAttendance
                   (fresh_system (Some (file_of_lines ["Bob,2026-10-30,Fri"]))
                                 "2026-10-30"))).1)
          "2026-10-30"))
  = attendance_set
      (mark_all [(at_time 0 true, "Alice")]
         (loadAttendance
            (fresh_system (Some (file_of_lines ["Bob,2026-10-30,Fri"])) "2026-10-30"))).1.
Proof.
  apply (restart_restores_today_set (Some ["Bob,2026-10-30,Fri"]) "2026-10-30"
           [(at_time 0 true, "Alice")]).
  - intros ls [= <-]. apply Forall_cons_2; [reflexivity | apply Forall_nil_2].
  - reflexivity.
  - reflexivity.
  - apply Forall_cons_2; [| apply Forall_nil_2].
    split; [reflexivity |]. split; [reflexivity |]. split; [reflexivity |].
    vm_compute. reflexivity.
Defined.

(** ** [markAttendance]: the cooldown *)

(** X5: After a call that got past the cooldown check, a further call for the
    same name less than ten seconds later does nothing at all; ten seconds or
    more later it only renews the time in the cooldown table, because the name
    is in the today-set by then. *)
Theorem cooldown_throttles (env1 env2 : MarkEnv) (name : string) (sys : System) :
  cooldown_active sys name (steady_now env1) = false ->
  let sys1 := (markAttendance env1 name sys).1 in
  (steady_now env2 - steady_now env1 < mark_cooldown ->
   markAttendance env2 name sys1 = (sys1, []))
  /\ (mark_cooldown <= steady_now env2 - steady_now env1 ->
      (markAttendance env2 name sys1).2 = [CooldownWrite name (steady_now env2)]
      /\ attendance_set (markAttendance env2 name sys1).1 = attendance_set sys1
      /\ attendance_file (markAttendance env2 name sys1).1 = attendance_file sys1).
Proof.
  intros Hfree sys1.
  assert (Hmark : last_mark_time sys1 !! name = Some (steady_now env1)).
  { unfold sys1, markAttendance. rewrite Hfree.
    case_bool_decide; [| destruct (file_opens env1)]; cbn; apply lookup_insert_eq. }
  assert (Hin : name ∈ attendance_set sys1).
  { unfold sys1, markAttendance. rewrite Hfree.
    case_bool_decide; [done |]. destruct (file_opens env1); cbn; set_solver. }
  split.
  - intros Hsoon. unfold markAttendance at 1, cooldown_active. rewrite Hmark.
    by rewrite (proj2 (Z.ltb_lt _ _)).
  - intros Hlate. unfold markAttendance, cooldown_active. rewrite Hmark.
    rewrite (proj2 (Z.ltb_ge _ _)) by done.
    by rewrite bool_decide_eq_true_2.
Qed.

Lemma cooldown_throttles_witness :
  markAttendance (at_time 9000000000 true) "Alice"
                 (markAttendance (at_time 0 true) "Alice" empty_day).1
  = ((markAttendance (at_time 0 true) "Alice" empty_day).1, []).
Proof.
  apply (proj1 (cooldown_throttles (at_time 0 true) (at_time 9000000000 true)
                  "Alice" empty_day eq_refl)).
  reflexivity.
Defined.

(** ** What a session keeps *)

Lemma with_records_app (file : option string) (rs1 rs2 : list AttendanceRecord) :
  with_records file (rs1 ++ rs2) = with_records (with_records file rs1) rs2.
Proof. unfold with_records. by rewrite fold_left_app. Qed.

Lemma appended_app (ws1 ws2 : list Effect) :
  appended (ws1 ++ ws2) = appended ws1 ++ appended ws2.
Proof. unfold appended. by rewrite omap_app. Qed.

Lemma verify_keeps (o : Observation) (sys : System) (tr : Tracker) :
  current_date (verify o sys tr).1.1 = current_date sys
  /\ attendance_set sys ⊆ attendance_set (verify o sys tr).1.1
  /\ attendance_file (verify o sys tr).1.1
     = with_records (attendance_file sys) (appended (writes (verify o sys tr).2)).
Proof.
  unfold verify.
  destruct (negb (String.eqb (detected_name o) "Unknown")); [| done].
  destruct (negb (String.eqb (candidate_name tr) (detected_name o))); [done |].
  destruct (3 <=? _); [| done].
  case_bool_decide; [done |].
  destruct (negb (verified_today tr)); [| done].
  pose proof (markAttendance_cases (mark_env o) (candidate_name tr) sys) as (Hd & Hs & _).
  pose proof (markAttendance_file (mark_env o) (candidate_name tr) sys) as Hf.
  by destruct (markAttendance (mark_env o) (candidate_name tr) sys).
Qed.

Lemma verify_all_keeps (os : list Observation) (sys : System) (tr : Tracker) :
  current_date (verify_all os sys tr).1.1 = current_date sys
  /\ attendance_set sys ⊆ attendance_set (verify_all os sys tr).1.1
  /\ attendance_file (verify_all os sys tr).1.1
     = with_records (attendance_file sys) (appended (all_writes (verify_all os sys tr).2))
  /\ (cooldown_consistent sys -> cooldown_consistent (verify_all os sys tr).1.1).
Proof.
  revert sys tr. induction os as [|o os IH]; intros sys tr; [done |].
  rewrite verify_all_cons. cbn zeta. cbn [fst snd].
  destruct (verify_keeps o sys tr) as (Hd1 & Hs1 & Hf1).
  destruct (IH (verify o sys tr).1.1 (verify o sys tr).1.2) as (Hd2 & Hs2 & Hf2 & Hc2).
  split; [congruence |]. split; [set_solver |]. split.
  - unfold all_writes in *. cbn [map concat].
    by rewrite appended_app, with_records_app, <- Hf1.
  - intros Hc. by apply Hc2, verify_consistent.
Qed.

Lemma with_records_text (file : option string) (rs : list AttendanceRecord) :
  rs ≠ [] ->
  with_records file rs = Some (default EmptyString file +:+ records_text rs).
Proof.
  intros Hne. destruct rs as [|r rs]; [done |]. clear Hne.
  revert file r. induction rs as [|r' rs IH]; intros file r.
  - cbn. by rewrite append_nil_r.
  - change (with_records file (r :: r' :: rs))
      with (with_records (append_to file (record_line r)) (r' :: rs)).
    rewrite IH. unfold append_to. cbn [default records_text foldr]. unfold id.
    by rewrite append_assoc.
Qed.

(** X6: A session of [runAttendance] keeps the date, never removes a name from
    the today-set, and changes the file only by adding the lines of the
    records it appends at its end; what was in the file stays in front. *)
Theorem session_is_append_only (known_faces : list (string * Mat)) (camera_opens : bool)
    (frames : list Frame) (sys : System) :
  let sys' := (runAttendance known_faces camera_opens frames sys).1 in
  let rs := appended (all_writes (runAttendance known_faces camera_opens frames sys).2) in
  current_date sys' = current_date sys
  /\ attendance_set sys ⊆ attendance_set sys'
  /\ attendance_file sys'
     = match rs with
       | [] => attendance_file sys
       | _ => Some (default EmptyString (attendance_file sys) +:+ records_text rs)
       end.
Proof.
  unfold runAttendance. destruct camera_opens; [| done].
  rewrite run_frames_verify_all.
  set (os := observe known_faces <$> _).
  pose proof (verify_all_keeps os sys tracker_init) as (Hd & Hs & Hf & _).
  destruct (verify_all os sys tracker_init) as [[sys' tr'] rs]. cbn [fst snd] in *.
  split; [done |]. split; [done |].
  destruct (appended (all_writes rs)) as [|r rs'] eqn:Hrs; [done |].
  rewrite Hf. by apply with_records_text.
Qed.

(** ** The loop and the cooldown *)

Lemma verify_mark_inserts (o : Observation) (sys : System) (tr : Tracker) :
  cooldown_consistent sys ->
  mark_calls (verify o sys tr).2 = inserted (writes (verify o sys tr).2)
  /\ forall X, X ∈ mark_calls (verify o sys tr).2 ->
               (X ∉ attendance_set sys) /\ X ∈ attendance_set (verify o sys tr).1.1.
Proof.
  intros Hc.
  assert (Hquiet : forall (s : System) (t : Tracker) b,
             mark_calls (s, t, quiet b).2 = inserted (writes (s, t, quiet b).2)
             /\ forall X, X ∈ mark_calls (s, t, quiet b).2 ->
                          (X ∉ attendance_set sys) /\ X ∈ attendance_set (s, t, quiet b).1.1).
  { intros s t b. split; [done |]. intros X HX. by apply elem_of_nil in HX. }
  unfold verify.
  destruct (negb (String.eqb (detected_name o) "Unknown")); [| apply Hquiet].
  destruct (negb (String.eqb (candidate_name tr) (detected_name o))); [apply Hquiet |].
  destruct (3 <=? _); [| apply Hquiet].
  case_bool_decide as Hin; [apply Hquiet |].
  destruct (negb (verified_today tr)); [| apply Hquiet].
  pose proof (markAttendance_fresh (mark_env o) (candidate_name tr) sys Hin
                (consistent_not_held_back _ _ _ Hc Hin)) as (Hset & Hopen & Hclosed).
  destruct (markAttendance (mark_env o) (candidate_name tr) sys) as [sys' ws].
  cbn [fst snd mark_calls writes] in *. split.
  - destruct (file_opens (mark_env o)).
    + by destruct (Hopen eq_refl) as [-> _].
    + by destruct (Hclosed eq_refl) as [-> _].
  - intros X HX. by apply list_elem_of_singleton in HX as ->.
Qed.

(** In a system built by the constructor, whatever sessions came before, the
    ten-second cooldown never holds back a call the loop makes: every call of
    [markAttendance] by the loop inserts its name, which was not in the
    today-set, into the today-set. *)
Lemma loop_marks_are_never_held_back (os : list Observation) (sys : System)
    (tr : Tracker) :
  cooldown_consistent sys ->
  all_mark_calls (verify_all os sys tr).2 = inserted (all_writes (verify_all os sys tr).2)
  /\ forall X, X ∈ all_mark_calls (verify_all os sys tr).2 ->
               (X ∉ attendance_set sys) /\ X ∈ attendance_set (verify_all os sys tr).1.1.
Proof.
  revert sys tr. induction os as [|o os IH]; intros sys tr Hc.
  - split; [done |]. intros X HX. by apply elem_of_nil in HX.
  - rewrite verify_all_cons. cbn zeta. cbn [fst snd].
    destruct (IH (verify o sys tr).1.1 (verify o sys tr).1.2 (verify_consistent o sys tr Hc))
      as [Heq Hin].
    destruct (verify_mark_inserts o sys tr Hc) as [Heq1 Hin1].
    destruct (verify_keeps o sys tr) as (_ & Hsub1 & _).
    destruct (verify_all_keeps os (verify o sys tr).1.1 (verify o sys tr).1.2)
      as (_ & Hsub2 & _).
    unfold all_mark_calls, all_writes, inserted in *. cbn [map concat].
    rewrite omap_app, <- Heq, <- Heq1. split; [done |].
    intros X HX. apply elem_of_app in HX as [HX | HX].
    + destruct (Hin1 X HX) as [Hn Hi]. split; [done | set_solver].
    + destruct (Hin X HX) as [Hn Hi]. split; [set_solver | done].
Qed.

(** The state the constructor builds is consistent, and sessions keep it so. *)
Lemma constructed_is_consistent (env : Environment) (sys : System)
    (known_faces : gmap string Mat) :
  construct env = Constructed sys known_faces -> cooldown_consistent sys.
Proof.
  unfold construct. destruct (cascade_loads env); cbn [negb]; [| done].
  destruct (loadKnownFaces (photos env)); [| done].
  intros [= <- _]. by apply loadAttendance_consistent.
Qed.

Lemma runAttendance_marks (known_faces : list (string * Mat)) (camera_opens : bool)
    (frames : list Frame) (sys : System) :
  cooldown_consistent sys ->
  cooldown_consistent (runAttendance known_faces camera_opens frames sys).1
  /\ all_mark_calls (runAttendance known_faces camera_opens frames sys).2
     = inserted (all_writes (runAttendance known_faces camera_opens frames sys).2).
Proof.
  intros Hc. unfold runAttendance. destruct camera_opens; [| done].
  rewrite run_frames_verify_all. set (os := observe known_faces <$> _).
  pose proof (verify_all_keeps os sys tracker_init) as (_ & _ & _ & Hk).
  pose proof (loop_marks_are_never_held_back os sys tracker_init Hc) as [Heq _].
  destruct (verify_all os sys tracker_init) as [[sys' tr'] rs]. cbn [fst snd] in *.
  by split; [apply Hk |].
Qed.

(** X7: In every run of [main], over all sessions started from the menu, each
    call of [markAttendance] made by the loop inserts its name into the
    today-set: the ten-second cooldown check never makes such a call return
    early, because a name is entered in the cooldown table only together with
    the today-set. *)
Theorem main_cooldown_is_never_active (order : gmap string Mat -> list (string * Mat))
    (env : Environment) (choices : list Choice) (sys : System) (rs : list FrameResult) :
  main order env choices = Some (sys, rs) ->
  all_mark_calls rs = inserted (all_writes rs) /\ cooldown_consistent sys.
Proof.
  unfold main. destruct (construct env) as [|sys0 known_faces] eqn:Hcons; [done |].
  apply constructed_is_consistent in Hcons.
  assert (Hinv : forall acc : System * list FrameResult,
             cooldown_consistent acc.1 ->
             all_mark_calls acc.2 = inserted (all_writes acc.2) ->
             let res := fold_left (menu_step (order known_faces)) choices acc in
             all_mark_calls res.2 = inserted (all_writes res.2)
             /\ cooldown_consistent res.1).
  { induction choices as [|c choices IH]; intros acc Hc Heq; [done |].
    cbn [fold_left]. apply IH; destruct c as [cam frames| |]; cbn [menu_step]; try done.
    - destruct (runAttendance_marks (order known_faces) cam frames acc.1 Hc) as [Hc' _].
      by destruct (runAttendance (order known_faces) cam frames acc.1).
    - destruct (runAttendance_marks (order known_faces) cam frames acc.1 Hc) as [_ Heq'].
      destruct (runAttendance (order known_faces) cam frames acc.1) as [sys' rs'].
      cbn [fst snd] in *. unfold all_mark_calls, all_writes, inserted in *.
      rewrite !map_app, !concat_app, omap_app. by rewrite Heq, Heq'. }
  intros [= Hres]. specialize (Hinv (sys0, []) Hcons eq_refl).
  cbn zeta in Hinv. by rewrite Hres in Hinv.
Qed.

Lemma main_cooldown_is_never_active_witness :
  all_mark_calls
    (runAttendance [("Alice", [7])] true
                   [shows [7] 0; shows [7] 3000000000] empty_day).2
  = inserted
      (all_writes
         (runAttendance [("Alice", [7])] true
                        [shows [7] 0; shows [7] 3000000000] empty_day).2).
Proof.
  refine (proj1 (main_cooldown_is_never_active
                   (fun _ => [("Alice", [7])])
                   {| cascade_loads := true; ledger := Some EmptyString;
                      photos := Some [ {| is_regular_file := true; extension := ".png";
                                          stem := "Alice"; extracted_face := Some [7] |} ];
                      today := "2026-10-30" |}
                   [StartAttendance true [shows [7] 0; shows [7] 3000000000]]
                   _ _ _)).
  vm_compute. reflexivity.
Defined.

(** ** Whole streaks *)

(** The records appended during the rest of a streak. *)
Lemma streak_appended (X : string) (t0 : Z) (os : list Observation) :
  X ≠ "Unknown" ->
  Forall (fun o => detected_name o = X /\ file_opens (mark_env o) = true) os ->
  forall sys v,
    cooldown_consistent sys ->
    (v = true -> X ∈ attendance_set sys) ->
    record_key <$> appended (all_writes
      (verify_all os sys {| candidate_name := X; candidate_start := t0;
                            verified_today := v |}).2)
    = (if reaches_dwell t0 os && negb (bool_decide (X ∈ attendance_set sys))
       then [(X, current_date sys)] else [])
    /\ (reaches_dwell t0 os = true ->
        X ∈ attendance_set
              (verify_all os sys {| candidate_name := X; candidate_start := t0;
                                    verified_today := v |}).1.1).
Proof.
  intros HU Hall. induction os as [|o os IH]; intros sys v Hc Hv; [done |].
  apply Forall_cons in Hall as [[Hd Hopen] Hall]. specialize (IH Hall).
  rewrite verify_all_cons. cbn zeta.
  rewrite (verify_streak_next X t0 v o sys HU Hd).
  unfold all_writes. cbn [reaches_dwell existsb].
  destruct (3 <=? whole_seconds (loop_now o - t0)) eqn:Hdw.
  - rewrite (proj2 (Z.leb_le _ _)) by (by apply dwell_reached). cbn [orb andb].
    case_bool_decide as Hin.
    + cbn [fst snd map concat writes quiet app negb].
      fold (all_writes (verify_all os sys
             {| candidate_name := X; candidate_start := t0; verified_today := true |}).2).
      destruct (IH sys true Hc (fun _ => Hin)) as [Hrec Hset].
      rewrite Hrec, bool_decide_eq_true_2, andb_false_r by done. split; [done |].
      intros _.
      by apply (proj1 (proj2 (verify_all_keeps os sys
             {| candidate_name := X; candidate_start := t0; verified_today := true |}))).
    + destruct v; [exfalso; by apply Hin, Hv |].
      cbn [negb fst snd map concat writes].
      fold (all_writes (verify_all os (markAttendance (mark_env o) X sys).1
             {| candidate_name := X; candidate_start := t0; verified_today := true |}).2).
      destruct (markAttendance_fresh (mark_env o) X sys Hin
                  (consistent_not_held_back _ _ _ Hc Hin)) as (Hset & Hw & _).
      destruct (Hw Hopen) as [Hws _].
      destruct (IH (markAttendance (mark_env o) X sys).1 true
                  (markAttendance_consistent _ _ _ Hc) (fun _ => Hset)) as [Hrec _].
      rewrite appended_app, fmap_app, Hrec, Hws.
      rewrite bool_decide_eq_true_2, andb_false_r by done.
      split; [done |]. intros _.
      by apply (proj1 (proj2 (verify_all_keeps os (markAttendance (mark_env o) X sys).1
             {| candidate_name := X; candidate_start := t0; verified_today := true |}))).
  - apply dwell_not_reached in Hdw.
    rewrite (proj2 (Z.leb_gt _ _)) by done.
    cbn [fst snd map concat writes quiet app orb].
    fold (all_writes (verify_all os sys
             {| candidate_name := X; candidate_start := t0; verified_today := v |}).2).
    by apply IH.
Qed.

(** X8: Someone not yet marked today who is identified without interruption until
    a frame three seconds or more after the first one gets exactly one record,
    with their name and the date of the run, and is in the today-set
    afterwards (the file opens whenever it is tried). *)
Theorem streak_commits_once (X : string) (o0 : Observation) (rest : list Observation)
    (sys : System) (tr : Tracker) :
  X ≠ "Unknown" ->
  cooldown_consistent sys ->
  candidate_name tr ≠ X ->
  X ∉ attendance_set sys ->
  detected_name o0 = X ->
  Forall (fun o => detected_name o = X /\ file_opens (mark_env o) = true) rest ->
  (exists o, o ∈ rest /\ seconds 3 <= loop_now o - loop_now o0) ->
  record_key <$> appended (all_writes (verify_all (o0 :: rest) sys tr).2)
  = [(X, current_date sys)]
  /\ X ∈ attendance_set (verify_all (o0 :: rest) sys tr).1.1.
Proof.
  intros HU Hc Hcand Hnew Hd Hall Hlong.
  rewrite verify_all_cons. cbn zeta.
  rewrite (verify_streak_start X o0 sys tr HU Hd Hcand). cbn [fst snd].
  destruct (streak_appended X (loop_now o0) rest HU Hall sys false Hc ltac:(done))
    as [Hrec Hset].
  unfold all_writes in *. cbn [map concat writes quiet app].
  rewrite Hrec, (reaches_dwell_true _ _ Hlong), bool_decide_eq_false_2 by done.
  split; [done |]. apply Hset. by apply reaches_dwell_true.
Qed.

Lemma streak_commits_once_witness :
  record_key <$> appended (all_writes
    (verify_all [sees "Alice" 0; sees "Alice" 3000000000] empty_day tracker_init).2)
  = [("Alice", "2026-10-30")].
Proof.
  apply (streak_commits_once "Alice" (sees "Alice" 0) [sees "Alice" 3000000000]
           empty_day tracker_init).
  - discriminate.
  - intros n [t Ht]. cbn in Ht. by rewrite lookup_empty in Ht.
  - discriminate.
  - cbn. set_solver.
  - reflexivity.
  - apply Forall_cons_2; [by split | apply Forall_nil_2].
  - exists (sees "Alice" 3000000000). split; [by left | unfold seconds; cbn; lia].
Defined.

(** X9: Someone already in the today-set: however long the streak, the state does
    not change and nothing is written; each frame after the first shows
    "Verifying" until three seconds have passed and "Attendance Marked For
    Today" from then on, never "Attendance Successful". *)
Theorem marked_identity_streak (X : string) (o0 : Observation) (rest : list Observation)
    (sys : System) (tr : Tracker) :
  X ≠ "Unknown" ->
  candidate_name tr ≠ X ->
  X ∈ attendance_set sys ->
  detected_name o0 = X ->
  Forall (fun o => detected_name o = X) rest ->
  (verify_all (o0 :: rest) sys tr).1.1 = sys
  /\ (verify_all (o0 :: rest) sys tr).2
     = quiet None
       :: ((fun o => quiet (Some (if seconds 3 <=? loop_now o - loop_now o0
                                  then MarkedForToday X else Verifying X))) <$> rest).
Proof.
  intros HU Hcand Hin Hd Hall.
  rewrite verify_all_cons. cbn zeta.
  rewrite (verify_streak_start X o0 sys tr HU Hd Hcand). cbn [fst snd].
  assert (Hrest : forall v,
             (verify_all rest sys {| candidate_name := X; candidate_start := loop_now o0;
                                     verified_today := v |}).1.1 = sys
             /\ (verify_all rest sys {| candidate_name := X; candidate_start := loop_now o0;
                                        verified_today := v |}).2
                = (fun o => quiet (Some (if seconds 3 <=? loop_now o - loop_now o0
                                         then MarkedForToday X else Verifying X))) <$> rest).
  { induction rest as [|o os IH]; intros v; [done |].
    apply Forall_cons in Hall as [Ho Hall]. specialize (IH Hall).
    rewrite verify_all_cons. cbn zeta.
    rewrite (verify_streak_next X (loop_now o0) v o sys HU Ho).
    destruct (3 <=? whole_seconds (loop_now o - loop_now o0)) eqn:Hdw.
    - rewrite bool_decide_eq_true_2 by done. cbn [fst snd fmap list_fmap].
      rewrite (proj2 (Z.leb_le _ _)) by (by apply dwell_reached).
      destruct (IH true) as [-> ->]. done.
    - cbn [fst snd fmap list_fmap]. apply dwell_not_reached in Hdw.
      rewrite (proj2 (Z.leb_gt _ _)) by done.
      destruct (IH v) as [-> ->]. done. }
  destruct (Hrest false) as [-> ->]. done.
Qed.

Lemma marked_identity_streak_witness :
  banner <$> (verify_all [sees "Bob" 0; sees "Bob" 1000000000; sees "Bob" 4000000000]
                         bob_marked tracker_init).2
  = [None; Some (Verifying "Bob"); Some (MarkedForToday "Bob")].
Proof.
  assert (Hin : "Bob" ∈ attendance_set bob_marked).
  { change (attendance_set bob_marked) with ({["Bob"]} ∪ (∅ : gset string)). set_solver. }
  assert (Hall : Forall (fun o => detected_name o = "Bob")
                        [sees "Bob" 1000000000; sees "Bob" 4000000000]).
  { apply Forall_cons_2; [done |]. apply Forall_cons_2; [done | apply Forall_nil_2]. }
  rewrite (proj2 (marked_identity_streak "Bob" (sees "Bob" 0)
                    [sees "Bob" 1000000000; sees "Bob" 4000000000] bob_marked tracker_init
                    ltac:(discriminate) ltac:(discriminate) Hin eq_refl Hall)).
  reflexivity.
Defined.

(** X10: A change of identity restarts the timer: after (X, Y, X) with two
    different accepted names the streak of X starts at the third frame, and
    neither the second nor the third frame marks anybody. *)
Theorem streak_restarts_after_other (X Y : string) (o1 o2 o3 : Observation)
    (sys : System) (tr : Tracker) :
  X ≠ "Unknown" -> Y ≠ "Unknown" -> X ≠ Y ->
  detected_name o1 = X -> detected_name o2 = Y -> detected_name o3 = X ->
  (verify_all [o1; o2; o3] sys tr).1.2
  = {| candidate_name := X; candidate_start := loop_now o3; verified_today := false |}
  /\ mark_calls <$> drop 1 (verify_all [o1; o2; o3] sys tr).2 = [[]; []].
Proof.
  intros HX HY Hne H1 H2 H3.
  rewrite !verify_all_cons. cbn zeta. cbn [verify_all fst snd drop].
  pose proof (candidate_after_verify o1 sys tr) as Hc1.
  rewrite H1, (proj2 (String.eqb_neq _ _) HX) in Hc1.
  set (s1 := verify o1 sys tr) in *.
  rewrite (verify_streak_start Y o2 s1.1.1 s1.1.2 HY H2) by congruence.
  cbn [fst snd].
  rewrite (verify_streak_start X o3) by (done || (cbn; congruence)).
  done.
Qed.

Lemma streak_restarts_after_other_witness :
  candidate_start
    (verify_all [sees "Alice" 0; sees "Bob" 2000000000; sees "Alice" 4000000000]
                empty_day tracker_init).1.2 = 4000000000.
Proof.
  rewrite (proj1 (streak_restarts_after_other "Alice" "Bob" (sees "Alice" 0)
                    (sees "Bob" 2000000000) (sees "Alice" 4000000000) empty_day
                    tracker_init ltac:(discriminate) ltac:(discriminate)
                    ltac:(discriminate) eq_refl eq_refl eq_refl)).
  reflexivity.
Defined.

(** X11: An empty frame changes nothing, wherever it comes in the stream; in
    particular it does not interrupt a streak. *)
Theorem empty_frame_is_skipped (known_faces : list (string * Mat))
    (before after : list Frame) (f : Frame) (sys : System) (tr : Tracker) :
  frame_empty f = true ->
  run_frames known_faces (before ++ f :: after) sys tr
  = run_frames known_faces (before ++ after) sys tr.
Proof.
  intros He. rewrite !run_frames_verify_all, !filter_app.
  by rewrite filter_cons_False by (rewrite He; discriminate).
Qed.

Lemma empty_frame_is_skipped_witness :
  run_frames [("Alice", [7])]
             ([shows [7] 0]
              ++ {| frame_empty := true; faces := []; frame_now := 1000000000;
                    frame_mark_env := at_time 1000000000 true |}
              :: [shows [7] 3000000000])
             empty_day tracker_init
  = run_frames [("Alice", [7])] ([shows [7] 0] ++ [shows [7] 3000000000])
               empty_day tracker_init.
Proof. by apply empty_frame_is_skipped. Defined.

(** ** The matcher *)

Lemma absdiff_sym (a b : Mat) : Cv.absdiff a b = Cv.absdiff b a.
Proof.
  revert b. induction a as [|x a IH]; intros [|y b]; try done.
  unfold Cv.absdiff in *. cbn [zip_with]. rewrite IH.
  by replace (x - y) with (- (y - x)) by lia; rewrite Z.abs_opp.
Qed.

Lemma face_mse_sym (a b : Mat) : face_mse a b = face_mse b a.
Proof. unfold face_mse. by rewrite absdiff_sym. Qed.

Lemma saturated_square_sum_nonneg (d : Mat) : 0 <= Cv.sum (Cv.mul d d).
Proof. apply sum_saturated_bound. Qed.

Lemma face_mse_self (a : Mat) : (face_mse a a == 0)%Q.
Proof.
  unfold face_mse.
  assert (Hz : Cv.sum (Cv.mul (Cv.absdiff a a) (Cv.absdiff a a)) = 0).
  { induction a as [|x a IH]; [done |].
    unfold Cv.absdiff, Cv.mul, Cv.sum in *. cbn [zip_with foldr].
    rewrite IH, Z.sub_diag. reflexivity. }
  rewrite Hz. reflexivity.
Qed.

(** Two signatures of the same size that differ somewhere are at a positive
    distance. *)
Lemma face_mse_positive (a b : Mat) :
  length a = length b -> a ≠ b -> (0 < face_mse a b)%Q.
Proof.
  intros Hlen Hne. unfold face_mse.
  assert (Hpos : 0 < Cv.sum (Cv.mul (Cv.absdiff a b) (Cv.absdiff a b))).
  { revert b Hlen Hne. induction a as [|x a IH]; intros [|y b] Hlen Hne; try done.
    injection Hlen as Hlen.
    unfold Cv.absdiff, Cv.mul, Cv.sum in *. cbn [zip_with foldr].
    pose proof (sum_saturated_bound (Cv.absdiff a b) (Cv.absdiff a b)) as [Hs _].
    unfold Cv.absdiff, Cv.mul, Cv.sum in Hs.
    destruct (decide (x = y)) as [-> | Hxy].
    - assert (a ≠ b) by congruence. specialize (IH b Hlen ltac:(done)).
      unfold Cv.saturate_u8 at 1. generalize (Cv.saturate_u8 (Z.abs (y - y))). intros p.
      generalize (p * p). intros q. lia.
    - assert (1 <= Cv.saturate_u8 (Z.abs (x - y))) as H1 by (unfold Cv.saturate_u8; lia).
      assert (Cv.saturate_u8 (Z.abs (x - y)) <= 255) as H2 by (unfold Cv.saturate_u8; lia).
      set (p := Cv.saturate_u8 (Z.abs (x - y))) in *.
      assert (1 <= Cv.saturate_u8 (p * p)) by (unfold Cv.saturate_u8; nia).
      lia. }
  set (s := Cv.sum _) in *. clearbody s.
  apply Qlt_shift_div_l; [reflexivity |]. rewrite Qmult_0_l.
  change 0%Q with (inject_Z 0). by rewrite <- Zlt_Qlt.
Qed.

(** X12: A query that is pixel for pixel the enrolled signature of A, while every
    other enrolled signature has the same size and differs from it somewhere,
    is recognised as A. *)
Theorem exact_match_is_recognised (face : Mat) (g : list (string * Mat)) (A : string) :
  (A, face) ∈ g ->
  (forall B sig, (B, sig) ∈ g -> B ≠ A -> length sig = length face /\ sig ≠ face) ->
  recognizeFace face g = A.
Proof.
  intros HA Hothers. unfold recognizeFace. rewrite recognizeFace_with_scan.
  pose proof (face_mse_self face) as Hself.
  destruct (scan_cases _ face rejection_threshold_is_double g)
    as [[_ Hall] | (pre & [B sig] & post & Hg & Hres & _ & _ & Hmin)].
  - specialize (Hall _ HA). cbn [snd] in Hall. unfold rejection_threshold in Hall. lra.
  - rewrite Hres. cbn [fst snd] in *.
    destruct (decide (B = A)) as [-> | Hne]; [done | exfalso].
    assert ((B, sig) ∈ g) as HB by (rewrite Hg; apply in_middle).
    destruct (Hothers B sig HB Hne) as [Hlen Hdiff].
    pose proof (face_mse_positive face sig ltac:(done) ltac:(done)) as Hpos.
    specialize (Hmin _ HA). cbn [snd] in Hmin. lra.
Qed.

Lemma exact_match_is_recognised_witness :
  recognizeFace [10; 20] [("B", [10; 21]); ("A", [10; 20])] = "A".
Proof.
  apply exact_match_is_recognised.
  - apply elem_of_cons. right. by left.
  - intros B sig HB Hne.
    apply elem_of_cons in HB as [[= -> ->] | HB]; [by split |].
    apply list_elem_of_singleton in HB as [= -> ->]. by destruct Hne.
Defined.

(** X13: The answer is "Unknown" or the name of a gallery entry; for a query of at
    most 200x200 pixels and a non-empty gallery it is always the name of a
    gallery entry, because no distance the code computes reaches 1500. *)
Theorem recognizeFace_answers (face : Mat) (g : list (string * Mat)) :
  (recognizeFace face g = "Unknown" \/ recognizeFace face g ∈ g.*1)
  /\ (Z.of_nat (length face) <= 200 * 200 -> g ≠ [] -> recognizeFace face g ∈ g.*1).
Proof.
  split.
  - unfold recognizeFace. rewrite recognizeFace_with_scan.
    destruct (scan_cases _ face rejection_threshold_is_double g)
      as [[Hu _] | (pre & kv & post & Hg & Hres & _)]; [by left | right].
    rewrite Hres. apply list_elem_of_fmap. exists kv. split; [done |].
    rewrite Hg. apply in_middle.
  - intros Hlen Hg. destruct (recognizeFace_never_rejects face g Hlen Hg) as (kv & Hin & ->).
    apply list_elem_of_fmap. by exists kv.
Qed.

Lemma recognizeFace_answers_witness :
  recognizeFace (flat 255) [("A", flat 0)] ∈ [("A", flat 0)].*1.
Proof.
  apply (proj2 (recognizeFace_answers (flat 255) [("A", flat 0)])).
  - vm_compute. discriminate.
  - discriminate.
Defined.

(** ** Enrolment: [inferName] and [loadKnownFaces] *)

Lemma find_first_of_at_prefix (chars : list ascii) (s : string) (i : N) :
  find_first_of_at chars s i
  = if String.eqb (prefix_before chars s) s then npos
    else (i + size (prefix_before chars s))%N.
Proof.
  revert i. induction s as [|a s IH]; intros i; [done |].
  cbn [find_first_of_at prefix_before].
  destruct (existsb (Ascii.eqb a) chars).
  - cbn [String.eqb]. unfold size. cbn. lia.
  - rewrite IH. cbn [String.eqb]. rewrite Ascii.eqb_refl.
    destruct (String.eqb (prefix_before chars s) s); [done |].
    rewrite size_cons. lia.
Qed.

Lemma prefix_before_split (chars : list ascii) (s : string) :
  exists rest, s = prefix_before chars s +:+ rest.
Proof.
  induction s as [|a s [rest IH]]; [by exists EmptyString |].
  cbn [prefix_before]. destruct (existsb (Ascii.eqb a) chars).
  - by exists (String a s).
  - exists rest. by rewrite append_cons, <- IH.
Qed.

Lemma prefix_before_free (chars : list ascii) (s : string) (c : ascii) :
  c ∈ chars -> contains c (prefix_before chars s) = false.
Proof.
  intros Hc. induction s as [|a s IH]; [done |]. cbn [prefix_before].
  destruct (existsb (Ascii.eqb a) chars) eqn:Hex; [done |].
  cbn [contains]. rewrite IH, orb_false_r.
  destruct (Ascii.eqb a c) eqn:Hac; [| done].
  apply Ascii.eqb_eq in Hac as ->.
  assert (existsb (Ascii.eqb c) chars = true); [| congruence].
  apply existsb_exists. exists c. split; [by apply list_elem_of_In | apply Ascii.eqb_refl].
Qed.

Lemma prefix_before_idem (chars : list ascii) (s : string) :
  prefix_before chars (prefix_before chars s) = prefix_before chars s.
Proof.
  induction s as [|a s IH]; [done |]. cbn [prefix_before].
  destruct (existsb (Ascii.eqb a) chars) eqn:Hex; [done |].
  cbn [prefix_before]. by rewrite Hex, IH.
Qed.

Lemma size_prefix_before (chars : list ascii) (s : string) :
  (size (prefix_before chars s) <= size s)%N.
Proof.
  induction s as [|a s IH]; [done |]. cbn [prefix_before].
  destruct (existsb (Ascii.eqb a) chars); rewrite ?size_cons; unfold size in *; cbn; lia.
Qed.

Lemma inferName_prefix (stem : string) :
  (size stem < npos)%N -> inferName stem = prefix_before separators stem.
Proof.
  intros Hsize. unfold inferName, find_first_of. fold separators.
  rewrite find_first_of_at_prefix.
  destruct (String.eqb (prefix_before separators stem) stem) eqn:He.
  - rewrite N.eqb_refl. apply String.eqb_eq in He. by rewrite He.
  - pose proof (size_prefix_before separators stem) as Hle.
    rewrite N.add_0_l, (proj2 (N.eqb_neq _ npos)) by lia.
    destruct (prefix_before_split separators stem) as [rest Hsplit].
    rewrite Hsplit at 1. apply substr_prefix.
Qed.

(** X14: The name taken from a file name is its text before the first "_", "-" or
    space (all of it when there is none); it contains none of the three, and
    taking the name of a name changes nothing. *)
Theorem inferName_is_leading_part (stem : string) :
  (size stem < npos)%N ->
  inferName stem = prefix_before separators stem
  /\ (forall c, c ∈ separators -> contains c (inferName stem) = false)
  /\ inferName (inferName stem) = inferName stem.
Proof.
  intros Hsize. pose proof (size_prefix_before separators stem) as Hle.
  rewrite !inferName_prefix by done. split; [done |]. split.
  - intros c Hc. by apply prefix_before_free.
  - rewrite inferName_prefix by lia. apply prefix_before_idem.
Qed.

Lemma inferName_is_leading_part_witness :
  inferName "anna-maria_2" = "anna" /\ inferName (inferName "anna-maria_2") = inferName "anna-maria_2".
Proof.
  destruct (inferName_is_leading_part "anna-maria_2" eq_refl) as (H1 & _ & H3).
  split; [exact H1 | exact H3].
Defined.

Lemma load_entries_snoc (entries : list DirEntry) (e : DirEntry) acc :
  fold_left load_entry (entries ++ [e]) acc
  = load_entry (fold_left load_entry entries acc) e.
Proof. by rewrite fold_left_app. Qed.

Lemma load_entry_usable acc (e : DirEntry) (face : Mat) :
  usable e = true -> extracted_face e = Some face ->
  load_entry acc e = (<[inferName (stem e) := face]> acc.1, S acc.2).
Proof.
  unfold usable, load_entry. intros Hu Hf.
  apply andb_true_iff in Hu as [Hu _]. apply andb_true_iff in Hu as [-> ->].
  by rewrite Hf.
Qed.

Lemma usable_has_face (e : DirEntry) :
  usable e = true -> exists face, extracted_face e = Some face.
Proof.
  unfold usable. intros Hu. apply andb_true_iff in Hu as [_ Hu].
  apply bool_decide_eq_true in Hu as [face Hf]. by exists face.
Qed.

Lemma faces_named_snoc (n : string) (entries : list DirEntry) (e : DirEntry) :
  faces_named n (entries ++ [e])
  = faces_named n entries
    ++ (if usable e && String.eqb (inferName (stem e)) n
        then option_list (extracted_face e) else []).
Proof.
  unfold faces_named. rewrite omap_app. f_equal. cbn [omap list_omap].
  destruct (usable e && String.eqb (inferName (stem e)) n); [| done].
  by destruct (extracted_face e).
Qed.

Lemma load_entries_lookup (entries : list DirEntry) (n : string) :
  (fold_left load_entry entries (∅, 0%nat)).1 !! n = last (faces_named n entries).
Proof.
  induction entries as [|e entries IH] using rev_ind; [done |].
  rewrite load_entries_snoc, faces_named_snoc.
  destruct (usable e) eqn:Hu.
  - destruct (usable_has_face e Hu) as [face Hf].
    rewrite (load_entry_usable _ e face Hu Hf). cbn [fst andb].
    destruct (String.eqb (inferName (stem e)) n) eqn:Hn.
    + apply String.eqb_eq in Hn as <-. rewrite Hf.
      change (option_list (Some face)) with [face].
      rewrite last_snoc. apply lookup_insert_eq.
    + apply String.eqb_neq in Hn. rewrite app_nil_r, lookup_insert_ne by done. apply IH.
  - rewrite load_entry_unusable by done. cbn [andb]. by rewrite app_nil_r.
Qed.

Lemma load_entries_count (entries : list DirEntry) acc :
  (fold_left load_entry entries acc).2
  = (acc.2 + length (filter (fun e => usable e = true) entries))%nat.
Proof.
  revert acc. induction entries as [|e entries IH]; intros acc; [cbn; lia |].
  cbn [fold_left]. rewrite IH. destruct (usable e) eqn:Hu.
  - destruct (usable_has_face e Hu) as [face Hf].
    rewrite (load_entry_usable _ e face Hu Hf), filter_cons_True by done. cbn. lia.
  - rewrite load_entry_unusable, filter_cons_False by (done || congruence). done.
Qed.

(** X15: The gallery holds, under each name, the face of the last usable photo
    with that name (a later photo replaces an earlier one), and nothing under
    a name no usable photo has. *)
Theorem gallery_last_photo_wins (entries : list DirEntry) (known_faces : gmap string Mat) :
  loadKnownFaces (Some entries) = Some known_faces ->
  forall n, known_faces !! n = last (faces_named n entries).
Proof.
  unfold loadKnownFaces. intros H n.
  pose proof (load_entries_lookup entries n) as Hl.
  destruct (fold_left load_entry entries (∅, 0%nat)) as [m k].
  destruct (k =? 0)%nat; [done |]. injection H as <-. exact Hl.
Qed.

Lemma gallery_last_photo_wins_witness :
  match loadKnownFaces
          (Some [ {| is_regular_file := true; extension := ".png"; stem := "eve_1";
                     extracted_face := Some [1] |};
                  {| is_regular_file := true; extension := ".JPG"; stem := "eve 2";
                     extracted_face := Some [2] |} ]) with
  | Some known_faces => known_faces !! "eve" = Some [2]
  | None => False
  end.
Proof.
  destruct (loadKnownFaces _) as [known_faces|] eqn:H.
  - exact (gallery_last_photo_wins _ known_faces H "eve").
  - vm_compute in H. discriminate H.
Defined.

Lemma some_usable (entries : list DirEntry) :
  Exists (fun e => usable e = true) entries
  <-> length (filter (fun e => usable e = true) entries) ≠ 0%nat.
Proof.
  induction entries as [|e entries IH]; [split; [by intros H; inversion H | done] |].
  rewrite Exists_cons. destruct (usable e) eqn:Hu.
  - rewrite filter_cons_True by done. cbn. split; [done | by left].
  - rewrite filter_cons_False by congruence. rewrite <- IH. split; [by intros [? | ?] | by right].
Qed.

(** X16: The constructor succeeds exactly when the cascade loads, the photos
    directory exists and at least one of its entries is usable. *)
Theorem startup_succeeds_iff (env : Environment) :
  construct env ≠ ExitFailure
  <-> cascade_loads env = true
      /\ exists entries, photos env = Some entries
                         /\ Exists (fun e => usable e = true) entries.
Proof.
  unfold construct, loadKnownFaces.
  destruct (cascade_loads env); cbn [negb]; [| split; [done | by intros [? _]]].
  destruct (photos env) as [entries|]; [| split; [done | by intros [_ (? & ? & _)]]].
  pose proof (load_entries_count entries (∅, 0%nat)) as Hk.
  destruct (fold_left load_entry entries (∅, 0%nat)) as [m k]. cbn [fst snd] in Hk.
  assert (Hex : Exists (fun e => usable e = true) entries <-> k ≠ 0%nat).
  { rewrite Hk. cbn [fst snd Nat.add]. apply some_usable. }
  destruct (k =? 0)%nat eqn:Hz.
  - apply Nat.eqb_eq in Hz. split; [done |].
    intros [_ (es & [= <-] & He)]. by apply Hex in He.
  - apply Nat.eqb_neq in Hz. split; [| done]. intros _. split; [done |].
    exists entries. split; [done | by apply Hex].
Qed.

(** ** [extractFace]: the rectangle that is used *)

Lemma largest_so_far_in {A : Type} (comp : A -> A -> bool) (rest : list A) (x : A) :
  fold_left (fun largest y => if comp largest y then y else largest) rest x ∈ x :: rest.
Proof.
  revert x. induction rest as [|y rest IH]; intros x; [by left |].
  cbn [fold_left]. destruct (comp x y).
  - right. apply IH.
  - specialize (IH x). apply elem_of_cons in IH as [-> | IH]; [by left | by right; right].
Qed.

Lemma largest_so_far_stays (rest : list Rect) (best : Rect) :
  (forall r, r ∈ rest -> area r <= area best) ->
  fold_left (fun largest y => if area largest <? area y then y else largest) rest best = best.
Proof.
  induction rest as [|y rest IH]; intros Hle; [done |].
  cbn [fold_left]. rewrite (proj2 (Z.ltb_ge _ _)) by (apply Hle; by left).
  apply IH. intros r Hr. apply Hle. by right.
Qed.

Lemma max_element_first_largest (pre post : list Rect) (best : Rect) :
  (forall r, r ∈ pre -> area r < area best) ->
  (forall r, r ∈ post -> area r <= area best) ->
  max_element (fun a b => area a <? area b) (pre ++ best :: post) = Some best.
Proof.
  intros Hpre Hpost. destruct pre as [|x pre]; cbn [app max_element]; f_equal.
  - by apply largest_so_far_stays.
  - rewrite fold_left_app. cbn [fold_left].
    pose proof (largest_so_far_in (fun a b => area a <? area b) pre x) as Hin.
    rewrite (proj2 (Z.ltb_lt _ _)) by (by apply Hpre).
    by apply largest_so_far_stays.
Qed.

(** X17: Of the rectangles the detector reports, [extractFace] uses the first one
    of the greatest area; it yields nothing exactly when the image is empty or
    no rectangle is reported. *)
Theorem extractFace_uses_first_largest (Image Gray : Type) (image_empty : Image -> bool)
    (cvtColor : Image -> Gray) (detectMultiScale : Gray -> list Rect)
    (signature : Gray -> Rect -> Mat) (img : Image) :
  (extractFace Image Gray image_empty cvtColor detectMultiScale signature img = None
   <-> image_empty img = true \/ detectMultiScale (cvtColor img) = [])
  /\ (forall pre best post,
        image_empty img = false ->
        detectMultiScale (cvtColor img) = pre ++ best :: post ->
        (forall r, r ∈ pre -> area r < area best) ->
        (forall r, r ∈ post -> area r <= area best) ->
        extractFace Image Gray image_empty cvtColor detectMultiScale signature img
        = Some (signature (cvtColor img) best)).
Proof.
  unfold extractFace. split.
  - destruct (image_empty img); [split; [by left | done] |].
    destruct (detectMultiScale (cvtColor img)) as [|x rest]; [split; [by right | done] |].
    cbn [max_element]. split; [done | by intros [? | ?]].
  - intros pre best post -> -> Hpre Hpost.
    by rewrite max_element_first_largest.
Qed.

Lemma extractFace_uses_first_largest_witness :
  extractFace unit unit (fun _ => false) (fun _ => tt)
    (fun _ => [ {| rect_x := 0; rect_y := 0; rect_width := 80; rect_height := 80 |};
                {| rect_x := 5; rect_y := 5; rect_width := 100; rect_height := 90 |};
                {| rect_x := 9; rect_y := 9; rect_width := 90; rect_height := 100 |} ])
    (fun _ r => [rect_x r]) tt
  = Some [5].
Proof.
  apply (proj2 (extractFace_uses_first_largest unit unit (fun _ => false) (fun _ => tt)
                  _ (fun _ r => [rect_x r]) tt)
           [ {| rect_x := 0; rect_y := 0; rect_width := 80; rect_height := 80 |} ]
           {| rect_x := 5; rect_y := 5; rect_width := 100; rect_height := 90 |}
           [ {| rect_x := 9; rect_y := 9; rect_width := 90; rect_height := 100 |} ]).
  - reflexivity.
  - reflexivity.
  - intros r Hr. apply list_elem_of_singleton in Hr as ->. by vm_compute.
  - intros r Hr. apply list_elem_of_singleton in Hr as ->. by vm_compute.
Defined.

(** ** The date string *)

Lemma date_tails_agree_table :
  forallb (fun m =>
    forallb (fun d =>
      Bool.eqb (String.eqb (pad2 (print_int (m + 1)) +:+ "-" +:+ pad2 (print_int d))
                           (print_int (m + 1) +:+ "-" +:+ print_int d))
               ((9 <=? m) && (10 <=? d)))
      (seqZ 1 31))
    (seqZ 0 12) = true.
Proof. vm_compute. reflexivity. Qed.

(** X18: The two variants of the program write the same date string exactly from
    October on and from the tenth of the month on; on any other day a record
    written by one variant does not carry the date the other one looks for. *)
Theorem date_formats_agree_iff (tm_year tm_mon tm_mday : Z) :
  0 <= tm_mon <= 11 -> 1 <= tm_mday <= 31 ->
  getCurrentDate tm_year tm_mon tm_mday = LegacyLedger.getCurrentDate tm_year tm_mon tm_mday
  <-> 9 <= tm_mon /\ 10 <= tm_mday.
Proof.
  intros Hm Hd.
  pose proof date_tails_agree_table as Ht.
  rewrite forallb_forall in Ht.
  specialize (Ht tm_mon ltac:(apply list_elem_of_In, elem_of_seqZ; lia)).
  rewrite forallb_forall in Ht.
  specialize (Ht tm_mday ltac:(apply list_elem_of_In, elem_of_seqZ; lia)).
  apply Bool.eqb_prop in Ht.
  unfold getCurrentDate, LegacyLedger.getCurrentDate.
  split.
  - intros Heq. apply (inj (append _)) in Heq. apply (inj (append "-")) in Heq.
    apply String.eqb_eq in Heq. rewrite Heq in Ht. symmetry in Ht.
    apply andb_true_iff in Ht as [H1 H2]. lia.
  - intros [H1 H2]. f_equal. f_equal. apply String.eqb_eq. rewrite Ht.
    apply andb_true_iff. split; lia.
Qed.

Lemma date_formats_agree_iff_witness :
  getCurrentDate 126 9 30 = LegacyLedger.getCurrentDate 126 9 30
  /\ getCurrentDate 126 2 5 ≠ LegacyLedger.getCurrentDate 126 2 5
  /\ getCurrentDate 126 2 5 = "2026-03-05".
Proof.
  split; [| split; [| reflexivity]].
  - apply (date_formats_agree_iff 126 9 30); lia.
  - intros H. apply (date_formats_agree_iff 126 2 5) in H; lia.
Defined.

(** ** The ledger parser of the earlier variant *)

Lemma find_absent (c : ascii) (s : string) (pos : N) :
  contains c s = false -> find s c pos = npos.
Proof. intros H. unfold find. by apply find_at_absent. Qed.

(** X19: On a line with at least two commas the two variants read the same name
    and date. *)
Theorem legacy_parser_agrees (today : string) (set : gset string) (line : string) :
  (size line < npos)%N ->
  (2 <= count_char comma line)%nat ->
  LegacyLedger.load_line today set line = load_line today set line.
Proof.
  intros Hsize Hcount.
  assert (Hc : contains comma line = true).
  { destruct (contains comma line) eqn:E; [done |].
    apply count_char_zero in E. lia. }
  destruct (split_at_first comma line Hc) as (name & tail & -> & Hname).
  rewrite count_char_app in Hcount. cbn [count_char] in Hcount.
  rewrite Ascii.eqb_refl, (proj2 (count_char_zero comma name)) in Hcount by done.
  assert (Hc2 : contains comma tail = true).
  { destruct (contains comma tail) eqn:E; [done |].
    apply count_char_zero in E. lia. }
  destruct (split_at_first comma tail Hc2) as (date & rest & -> & Hdate).
  rewrite load_line_fields by done.
  rewrite size_app, size_cons, size_app, size_cons in Hsize.
  unfold LegacyLedger.load_line. fold comma.
  rewrite !first_comma by done. rewrite substr_prefix.
  rewrite size_add_small by lia. rewrite substr_skip.
  change (substr (String comma (date +:+ String comma rest)) 1 npos)
    with (substr (date +:+ String comma rest) 0 npos).
  assert (Hfit : (size (date +:+ String comma rest) <= npos)%N)
    by (rewrite size_app, size_cons; lia).
  rewrite (substr_all _ npos Hfit).
  rewrite first_comma by done. by rewrite substr_prefix.
Qed.

Lemma legacy_parser_agrees_witness :
  LegacyLedger.load_line "2026-10-30" ∅ "Bob,2026-10-30,Fri"
  = load_line "2026-10-30" ∅ "Bob,2026-10-30,Fri".
Proof. apply legacy_parser_agrees; [reflexivity | cbn; lia]. Defined.

(** X20: The earlier variant does not skip short lines: a line with one comma is
    read as a name and a date, and a line without comma as a name that is its
    own date.  The newer variant skips both. *)
Theorem legacy_parser_reads_short_lines (today : string) (set : gset string)
    (name date : string) :
  contains comma name = false -> contains comma date = false ->
  (size (name +:+ String comma date) < npos)%N ->
  LegacyLedger.load_line today set (name +:+ String comma date)
  = (if String.eqb date today then {[name]} ∪ set else set)
  /\ LegacyLedger.load_line today set name
     = (if String.eqb name today then {[name]} ∪ set else set)
  /\ load_line today set (name +:+ String comma date) = set
  /\ load_line today set name = set.
Proof.
  intros Hn Hd Hsize.
  assert (Hsize' := Hsize). rewrite size_app, size_cons in Hsize'.
  split; [| split; [| split]].
  - unfold LegacyLedger.load_line. fold comma.
    rewrite !first_comma by done. rewrite substr_prefix.
    rewrite size_add_small by lia. rewrite substr_skip.
    change (substr (String comma date) 1 npos) with (substr date 0 npos).
    rewrite !(substr_all date npos) by lia.
    rewrite find_absent by done. by rewrite (substr_all date npos) by lia.
  - unfold LegacyLedger.load_line. fold comma.
    rewrite !(find_absent comma name) by done.
    change (size_add npos 1) with 0%N. rewrite !(substr_all name npos) by lia.
    by rewrite !(find_absent comma name), (substr_all name npos) by (done || lia).
  - apply load_line_short; [done |].
    rewrite count_char_app. cbn [count_char]. rewrite Ascii.eqb_refl.
    rewrite !(proj2 (count_char_zero comma _)) by done. lia.
  - apply load_line_short; [lia |].
    rewrite (proj2 (count_char_zero comma _)) by done. lia.
Qed.

Lemma legacy_parser_reads_short_lines_witness :
  LegacyLedger.load_line "2026-10-30" ∅ "Bob,2026-10-30" = {["Bob"]} ∪ ∅
  /\ load_line "2026-10-30" ∅ "Bob,2026-10-30" = ∅.
Proof.
  destruct (legacy_parser_reads_short_lines "2026-10-30" ∅ "Bob" "2026-10-30"
              eq_refl eq_refl eq_refl) as (H1 & _ & H3 & _).
  split; [exact H1 | exact H3].
Defined.

(** ** The matcher and the loop of the earlier variant *)

Lemma sum_absdiff_bound (a b : Mat) :
  0 <= Cv.sum (Cv.absdiff a b) <= 255 * Z.of_nat (length a).
Proof.
  revert b. induction a as [|x a IH]; intros [|y b];
    cbn [Cv.absdiff zip_with Cv.sum foldr length]; try lia.
  specialize (IH b). unfold Cv.absdiff, Cv.sum in IH.
  generalize (Z.abs (x - y)). intros p. unfold Cv.saturate_u8.
  set (rest := foldr Z.add 0 _) in *. clearbody rest.
  rewrite Nat2Z.inj_succ. lia.
Qed.

Lemma legacy_distance_small (face known : Mat) :
  Z.of_nat (length face) <= 100 * 100 -> (Legacy.face_distance face known < 1000)%Q.
Proof.
  intros Hlen. unfold Legacy.face_distance.
  pose proof (sum_absdiff_bound face known) as Hs.
  set (s := Cv.sum _) in *. clearbody s.
  change 1000%Q with (inject_Z 1000).
  apply Qlt_shift_div_r; [reflexivity |].
  rewrite <- inject_Z_mult, <- Zlt_Qlt. lia.
Qed.

Lemma legacy_scan_keeps_gallery_name (face : Mat) (known : list (string * Mat))
    (names : list string) (acc : string * Q) :
  acc.1 ∈ names -> (forall kv, kv ∈ known -> kv.1 ∈ names) ->
  (fold_left (Legacy.recognize_step face) known acc).1 ∈ names.
Proof.
  revert acc. induction known as [|kv known IH]; intros acc Hacc Hnames; [done |].
  cbn [fold_left]. apply IH.
  - unfold Legacy.recognize_step. destruct acc as [n d].
    destruct (_ && _); [apply Hnames; by left | done].
  - intros kv' Hin. apply Hnames. by right.
Qed.

Lemma legacy_recognizeFace_in_gallery (face : Mat) (known : list (string * Mat)) :
  Z.of_nat (length face) <= 100 * 100 -> known ≠ [] ->
  Legacy.recognizeFace face known ∈ known.*1.
Proof.
  intros Hlen Hne. destruct known as [|kv known]; [done |].
  unfold Legacy.recognizeFace. cbn [fold_left].
  apply legacy_scan_keeps_gallery_name.
  - unfold Legacy.recognize_step.
    pose proof (legacy_distance_small face kv.2 Hlen) as Hd.
    assert (Hbig : (Legacy.face_distance face kv.2 < 1000000000)%Q) by lra.
    rewrite (proj2 (Qltb_lt _ _) Hd), (proj2 (Qltb_lt _ _) Hbig). cbn. by left.
  - intros kv' Hin. apply list_elem_of_fmap. exists kv'. split; [done | by right].
Qed.

Lemma legacy_frame_names (known : list (string * Mat)) (env : MarkEnv) (faces : list Mat)
    (acc : System * list string) :
  (fold_left (Legacy.frame_step known env) faces acc).2
  = acc.2 ++ ((fun face => Legacy.recognizeFace face known) <$> faces).
Proof.
  revert acc. induction faces as [|face faces IH]; intros acc.
  - cbn. by rewrite app_nil_r.
  - cbn [fold_left]. rewrite IH. unfold Legacy.frame_step. cbn [snd fmap list_fmap].
    by rewrite <- app_assoc.
Qed.

(** X21: The earlier variant calls [markAttendance] for every detected face of
    every frame, at once, with what its matcher answers; and since the mean
    absolute difference of 100x100 8-bit images cannot reach its threshold of
    1000, that is always the name of a gallery entry. *)
Theorem legacy_marks_every_face (known : list (string * Mat))
    (frames : list (MarkEnv * list Mat)) (sys : System) :
  known ≠ [] ->
  (forall f face, f ∈ frames -> face ∈ f.2 -> Z.of_nat (length face) <= 100 * 100) ->
  (Legacy.runAttendance known true frames sys).2
  = (fun face => Legacy.recognizeFace face known) <$> concat (snd <$> frames)
  /\ Forall (fun n => n ∈ known.*1) (Legacy.runAttendance known true frames sys).2.
Proof.
  intros Hne Hsmall.
  assert (Hnames : (Legacy.runAttendance known true frames sys).2
                   = (fun face => Legacy.recognizeFace face known) <$> concat (snd <$> frames)).
  { unfold Legacy.runAttendance. destruct known as [|kv known']; [done |].
    set (known := kv :: known') in *. clear Hsmall.
    assert (Hgen : forall acc : System * list string,
               (fold_left (fun acc f => fold_left (Legacy.frame_step known f.1) f.2 acc)
                          frames acc).2
               = acc.2 ++ ((fun face => Legacy.recognizeFace face known)
                             <$> concat (snd <$> frames))).
    { induction frames as [|f frames IH]; intros acc.
      - cbn. by rewrite app_nil_r.
      - cbn [fold_left]. rewrite IH, legacy_frame_names.
        cbn [fmap list_fmap concat]. by rewrite fmap_app, app_assoc. }
    by rewrite Hgen. }
  split; [done |]. rewrite Hnames. apply Forall_fmap, Forall_forall.
  intros face Hface. apply elem_of_concat in Hface as (faces & Hfaces & Hin).
  apply list_elem_of_fmap in Hfaces as (f & -> & Hf).
  apply legacy_recognizeFace_in_gallery; [by apply (Hsmall f) | done].
Qed.

Lemma legacy_marks_every_face_witness :
  (Legacy.runAttendance [("A", [0; 0])] true
     [(at_time 0 true, [[250; 250]; [1; 1]])] empty_day).2 = ["A"; "A"].
Proof.
  assert (Hsmall : forall (f : MarkEnv * list Mat) (face : Mat),
             f ∈ [(at_time 0 true, [[250; 250]; [1; 1]])] -> face ∈ f.2 ->
             Z.of_nat (length face) <= 100 * 100).
  { intros f face Hf Hface. apply list_elem_of_singleton in Hf as ->. cbn [snd] in Hface.
    apply elem_of_cons in Hface as [-> | Hface]; [cbn; lia |].
    apply list_elem_of_singleton in Hface as ->. cbn. lia. }
  rewrite (proj1 (legacy_marks_every_face [("A", [0; 0])]
                    [(at_time 0 true, [[250; 250]; [1; 1]])] empty_day
                    ltac:(discriminate) Hsmall)).
  by vm_compute.
Defined.

(** X22: In the earlier variant a second call of [markAttendance] for a name does
    nothing, whatever happened at the first one: the name is in the today-set
    after the first call even when the file could not be opened. *)
Theorem legacy_second_mark_is_noop (env1 env2 : MarkEnv) (name : string) (sys : System) :
  name ∈ attendance_set (Legacy.markAttendance env1 name sys).1
  /\ Legacy.markAttendance env2 name (Legacy.markAttendance env1 name sys).1
     = ((Legacy.markAttendance env1 name sys).1, []).
Proof.
  assert (Hin : name ∈ attendance_set (Legacy.markAttendance env1 name sys).1).
  { unfold Legacy.markAttendance. case_bool_decide; [done |].
    destruct (file_opens env1); cbn; set_solver. }
  split; [done |]. unfold Legacy.markAttendance at 1.
  by rewrite bool_decide_eq_true_2.
Qed.
